(** * kue: the queue worker (lib/queue/worker.js)

    A shallow embedding of [Worker] and of the callback chains it threads
    through the broker, the job interface and the user processor.

    The source is written in continuation-passing style on a single
    threaded event loop.  Every function of the source becomes a
    computation in a state monad over [World]; every closure the source
    hands to an asynchronous operation becomes a constructor of [Kont]
    that records the variables the closure captures; the event loop is
    [fire], which takes one outstanding continuation, removes it and runs
    its body to completion on the answer it receives. *)

From stdpp Require Import base strings list gmap.
From Stdlib Require Import ZArith.

Local Open Scope Z_scope.

(** ** Values *)

(** Modelled from the spec: a broker connection, as handed out by the
    factory [redis.createClient()] of lib/redis.js, which is not part of the
    worker.  Connections are told apart by the order of their creation. *)
Definition Conn := nat.

(** A callback supplied by a caller of the worker (the [fn] of [shutdown],
    of the control surface's [pause], or of a direct call of [getJob]). *)
Definition CbId := nat.

(** Modelled from the spec: [client.getKey(name)], the broker key of a
    logical name.  Key naming is delegated to lib/redis.js; the worker only
    passes the result on. *)
Inductive Key := GetKey (logical : string).

(** The double quote character, used in the text of the serialization
    marker. *)
Definition dquote : string := String (Ascii.ascii_of_nat 34) EmptyString.

(** Error values as the worker observes them: it tests their truthiness,
    reads [.stack] and [.message], and passes them on. *)
Inductive JsErr :=
| EStr (s : string)
| EObj (stack : option string) (message : option string) (error : option bool).

(** A result handed to [done(err, result)] by the processor, described by
    the three operations the worker applies to it: the truthiness test of
    [if (result)], [JSON.stringify(result)] ([None] when it throws) and the
    string coercion of ['...' + result] ([None] when it throws).  A result
    for which [JSON.stringify] returns [undefined] without throwing (a
    function, a symbol) is not described. *)
Record Result := {
  truthy : bool;
  JSON_stringify : option string;
  to_string : option string
}.

Module Job.
(** Modelled from the spec: the Job entity of lib/queue/job.js, which is
    consumed through the interface of section 6.2.  The in-memory object
    is seen through its immutable [id] and the accessors the worker reads
    synchronously; transitions and persisted fields are requests recorded
    in the trace (see [JobOp]). *)
Record t := {
  id : Z;
  delay : Z;                                   (* job.delay() *)
  backoff : bool;                              (* job.backoff(), as a truth value *)
  _getBackoffImpl : option (Z -> Z + JsErr);   (* a function (inr e: it throws e) or not a function *)
  removeOnComplete : bool                      (* job.removeOnComplete() *)
}.
End Job.

(** [self.job]: [null], the temporary value [true], or a job. *)
Inductive Current :=
| NoJob
| Reserving
| Holding (j : Job.t).

(** The three lifecycle events a listener is registered for. *)
Inductive JobEvent := JobComplete | JobFailed | JobFailedAttempt.

Global Instance JobEvent_eq_dec : EqDecision JobEvent.
Proof. solve_decision. Defined.

(** The function values that travel as [fn] through [start], [process] and
    [failed]: the user processor, or the [_fn] closure of a call of
    [shutdown].  The closure wraps the callback [cb] and reads the variable
    [shutdownTimer] of its call.  That variable is assigned at most once, at
    the end of [shutdown]; [timer] is the value every invocation after
    [shutdown] has returned reads ([None] for [null]).  The two invocations
    inside [shutdown] itself come before the assignment and read [null]. *)
Inductive Fn :=
| Processor (p : nat)
| ShutdownFn (timer : option nat) (cb : CbId).

(** The callback given to [getJob]: the closure of [start], or a callback of
    a direct caller. *)
Inductive GetJobCb :=
| StartCb (fn : Fn)
| ExternCb (cb : CbId).

(** ** Observable operations *)

(** The value given to [job.set(field, value)]: a number, a text, or the
    JSON text of an object [{error: e, message: m}]. *)
Inductive FieldValue :=
| FNum (z : Z)
| FText (s : string)
| FJsonObject (e : bool) (m : string).

(** Modelled from the spec: the operations of lib/queue/job.js the worker
    consumes (section 6.2).  The transitions and [attempt] involve a broker
    round trip: the worker requests them and their callback runs in a later
    turn of the loop.  The others are chained synchronously. *)
Inductive JobOp :=
| OpActive | OpComplete | OpFailed | OpInactive | OpDelayed | OpAttempt
| OpError (e : JsErr)
| OpDelay (ms : Z)
| OpUpdate
| OpSet (field : string) (v : FieldValue)
| OpRemove.

(** The last argument of [events.emit(job.id, kind, ...)] of
    lib/queue/events.js. *)
Inductive Payload :=
| PNone
| PResult (r : Result)
| PAttempts (n : Z).

(** What the worker does to the broker, to the job, to its listeners and
    to its callers, in program order. *)
Inductive Action :=
| CreateClient (c : Conn)
| BLPop (c : Conn) (k : Key)
| LPush (c : Conn) (k : Key)
| ZPop (c : Conn) (k : Key)
| Quit (c : Conn)
| JobGet (id : Z) (fn : GetJobCb)
| JobCall (id : Z) (op : JobOp)
| EmitError (errorObj : JsErr) (job : option Z)
| Emit (ev : JobEvent) (job : Z)
| EventsEmit (id : Z) (kind : string) (p : Payload)
| Invoke (p : nat) (job : Z)
| Callback (cb : CbId)
| GetJobResult (cb : CbId) (err : option JsErr) (job : option Z)
| NextTick
| SetTimeout (timer : nat) (ms : Z)
| ClearTimeout (timer : nat)
| QueueShutdown (cb : CbId) (timeout : Z) (type : string).

(** Operations on the broker: list and sorted-set commands and connection
    management. *)
Definition is_broker_op (a : Action) : bool :=
  match a with
  | CreateClient _ | BLPop _ _ | LPush _ _ | ZPop _ _ | Quit _ => true
  | _ => false
  end.

(** ** Continuations *)

Inductive Kont :=
| K_blpop (client : Conn) (fn : GetJobCb)
| K_exec (fn : GetJobCb)
| K_get (fn : GetJobCb)
| K_tick (fn : Fn)
| K_active (job : Job.t) (fn : Fn) (start : Z)
| K_done (job : Job.t) (fn : Fn) (start : Z)
| K_pause
| K_resume (fn : Fn)
| K_failed (job : Job.t) (fn : Fn)
| K_attempt_failed (job : Job.t) (fn : Fn)
| K_emit (job : Job.t) (attempts : Z)
| K_complete (job : Job.t) (result : Result)
| K_attempt_complete (job : Job.t) (result : Result)
| K_timer (timer : nat) (cb : CbId).

(** The answer an outstanding continuation is resumed with. *)
Inductive Resp :=
| R_unit
| R_err (err : option JsErr)
| R_exec (err : option JsErr) (range : list Z)
| R_job (err : option JsErr) (job : option Job.t)
| R_attempt (error : option JsErr) (remaining attempts max : Z)
| R_done (err : option JsErr) (result : Result)
| R_pause (cb : CbId) (timeout : option Z).

(** ** State *)

Record Worker := {
  type : string;
  client : Conn;
  running : bool;
  job : Current;
  listeners : list (JobEvent * (option nat * CbId))
}.

Record World := {
  self : Worker;
  Worker_client : option Conn;     (* the static [Worker.client] *)
  clients : gmap string Conn;      (* the module-level [clients] *)
  fresh_conn : Conn;               (* the next connection [createClient] returns *)
  fresh_timer : nat;               (* the next handle [setTimeout] returns *)
  clock : Z;                       (* [new Date], in milliseconds *)
  pending : list Kont;
  trace : list Action
}.

Definition with_running (b : bool) (w : Worker) : Worker :=
  {| type := type w; client := client w; running := b; job := job w;
     listeners := listeners w |}.

Definition with_job (c : Current) (w : Worker) : Worker :=
  {| type := type w; client := client w; running := running w; job := c;
     listeners := listeners w |}.

Definition with_listeners (l : list (JobEvent * (option nat * CbId))) (w : Worker) : Worker :=
  {| type := type w; client := client w; running := running w; job := job w;
     listeners := l |}.

Definition with_self (w : Worker) (σ : World) : World :=
  {| self := w; Worker_client := Worker_client σ; clients := clients σ;
     fresh_conn := fresh_conn σ; fresh_timer := fresh_timer σ;
     clock := clock σ; pending := pending σ; trace := trace σ |}.

Definition with_Worker_client (c : option Conn) (σ : World) : World :=
  {| self := self σ; Worker_client := c; clients := clients σ;
     fresh_conn := fresh_conn σ; fresh_timer := fresh_timer σ;
     clock := clock σ; pending := pending σ; trace := trace σ |}.

Definition with_clients (cs : gmap string Conn) (σ : World) : World :=
  {| self := self σ; Worker_client := Worker_client σ; clients := cs;
     fresh_conn := fresh_conn σ; fresh_timer := fresh_timer σ;
     clock := clock σ; pending := pending σ; trace := trace σ |}.

Definition with_fresh_conn (c : Conn) (σ : World) : World :=
  {| self := self σ; Worker_client := Worker_client σ; clients := clients σ;
     fresh_conn := c; fresh_timer := fresh_timer σ;
     clock := clock σ; pending := pending σ; trace := trace σ |}.

Definition with_fresh_timer (n : nat) (σ : World) : World :=
  {| self := self σ; Worker_client := Worker_client σ; clients := clients σ;
     fresh_conn := fresh_conn σ; fresh_timer := n;
     clock := clock σ; pending := pending σ; trace := trace σ |}.

Definition with_clock (t : Z) (σ : World) : World :=
  {| self := self σ; Worker_client := Worker_client σ; clients := clients σ;
     fresh_conn := fresh_conn σ; fresh_timer := fresh_timer σ;
     clock := t; pending := pending σ; trace := trace σ |}.

Definition with_pending (l : list Kont) (σ : World) : World :=
  {| self := self σ; Worker_client := Worker_client σ; clients := clients σ;
     fresh_conn := fresh_conn σ; fresh_timer := fresh_timer σ;
     clock := clock σ; pending := l; trace := trace σ |}.

Definition with_trace (l : list Action) (σ : World) : World :=
  {| self := self σ; Worker_client := Worker_client σ; clients := clients σ;
     fresh_conn := fresh_conn σ; fresh_timer := fresh_timer σ;
     clock := clock σ; pending := pending σ; trace := l |}.

(** ** The monad

    Every function of the source runs to completion on the event loop and
    reads and writes the worker, the registry of blocking connections, the
    outstanding continuations and the trace. *)

Definition M (A : Type) : Type := World -> A * World.

Global Instance M_ret : MRet M := fun A a σ => (a, σ).
Global Instance M_bind : MBind M :=
  fun A B f m σ => let '(a, σ') := m σ in f a σ'.

Definition exec {A} (m : M A) (σ : World) : World := snd (m σ).
Definition eval {A} (m : M A) (σ : World) : A := fst (m σ).

Definition get : M World := fun σ => (σ, σ).
Definition modify (f : World -> World) : M unit := fun σ => (tt, f σ).
Definition skip : M unit := mret tt.

Definition this : M Worker := fun σ => (self σ, σ).
Definition update_self (f : Worker -> Worker) : M unit :=
  modify (fun σ => with_self (f (self σ)) σ).

(** Record an operation the worker performs, in program order. *)
Definition log (a : Action) : M unit :=
  modify (fun σ => with_trace (trace σ ++ [a]) σ).

(** Hand a closure to an asynchronous operation. *)
Definition defer (k : Kont) : M unit :=
  modify (fun σ => with_pending (pending σ ++ [k]) σ).

Fixpoint for_each {A} (f : A -> M unit) (l : list A) : M unit :=
  match l with
  | [] => skip
  | x :: l' => f x;; for_each f l'
  end.

(** [redis.createClient()] *)
Definition createClient : M Conn := fun σ =>
  let c := fresh_conn σ in
  (c, with_trace (trace σ ++ [CreateClient c]) (with_fresh_conn (S c) σ)).

(** The two logical keys of a type. *)
Definition jobs_key (ty : string) : Key := GetKey (ty +:+ ":jobs").
Definition inactive_key (ty : string) : Key := GetKey ("jobs:" +:+ ty +:+ ":inactive").

(** ** The worker *)

(** [new Worker(queue, type)] *)
Definition Worker_new (ty : string) : M unit :=
  σ ← get;
  c ← match Worker_client σ with
      | Some c => mret c
      | None => c ← createClient; modify (with_Worker_client (Some c));; mret c
      end;
  modify (with_self {| type := ty; client := c; running := true; job := NoJob;
                       listeners := [] |}).

(** The truthiness of [err.stack]. *)
Definition has_stack (err : JsErr) : bool :=
  match err with
  | EObj (Some st) _ _ => negb (String.eqb st "")
  | _ => false
  end.

Definition errorObj (err : JsErr) : JsErr :=
  match err with
  | EObj st msg _ => if has_stack err then EObj st msg None else err
  | _ => err
  end.

(** [Worker.prototype.error].  No listener of this file is registered on
    ['error']; the emission is recorded and the call returns, which is what
    the source does while the ['error'] listener the queue attaches to its
    workers is in place.  The emitter throws on an ['error'] event nobody
    listens to, and [removeAllListeners()] in [_fn] detaches the listener of
    the queue with the others: an error reported after [_fn] has run ends
    the turn at the emission.  That case is not modelled: where a property
    below records an emission of ['error'], the listener of the queue is
    taken to be attached. *)
Definition error (err : JsErr) (job : option Job.t) : M unit :=
  log (EmitError (errorObj err) (Job.id <$> job)).

(** The guard of [_fn]: [job && self.job && job.id != self.job.id].  The
    temporary value [true] has no [id]. *)
Definition older_job (arg : option Job.t) (cur : Current) : bool :=
  match arg, cur with
  | Some j, Holding c => negb (Job.id j =? Job.id c)
  | Some _, Reserving => true
  | _, _ => false
  end.

Definition is_timer (t : nat) (k : Kont) : bool :=
  match k with
  | K_timer t' _ => Nat.eqb t' t
  | _ => false
  end.

(** [shutdownTimer && clearTimeout(shutdownTimer)]: a timer that has not
    fired yet is taken off the loop. *)
Definition clear_shutdownTimer (shutdownTimer : option nat) : M unit :=
  match shutdownTimer with
  | Some t =>
      log (ClearTimeout t);;
      modify (fun σ => with_pending (filter (fun k => is_timer t k = false) (pending σ)) σ)
  | None => skip
  end.

(** The [_fn] closure of [shutdown]. *)
Definition shutdown_fn (shutdownTimer : option nat) (fn : CbId) (arg : option Job.t) : M unit :=
  w ← this;
  if older_job arg (job w) then skip
  else
    clear_shutdownTimer shutdownTimer;;
    update_self (with_listeners []);;
    update_self (with_job NoJob);;
    log (LPush (client w) (jobs_key (type w)));;
    σ ← get;
    match clients σ !! type w with
    | Some c => log (Quit c)
    | None => skip
    end;;
    modify (fun σ => with_clients (delete (type w) (clients σ)) σ);;
    log (Callback fn).

(** [self.emit(ev, job)] for the three lifecycle events: the listeners
    registered at the time of the call are invoked in order. *)
Definition emit (ev : JobEvent) (j : Job.t) : M unit :=
  log (Emit ev (Job.id j));;
  w ← this;
  for_each (fun l => if decide (l.1 = ev) then shutdown_fn l.2.1 l.2.2 (Some j) else skip)
           (listeners w).

(** [this.on(ev, _fn)] *)
Definition on (ev : JobEvent) (shutdownTimer : option nat) (fn : CbId) : M unit :=
  update_self (fun w => with_listeners (listeners w ++ [(ev, (shutdownTimer, fn))]) w).

(** [Worker.prototype.process] *)
Definition process (j : Job.t) (fn : Fn) : M unit :=
  σ ← get;
  let start := clock σ in
  log (JobCall (Job.id j) OpActive);;
  defer (K_active j fn start).

(** The callback [start] gives to [getJob]. *)
Definition start_cb (fn : Fn) (err : option JsErr) (j : option Job.t) : M unit :=
  match err with
  | Some e => error e j
  | None => skip
  end;;
  match err, j with
  | None, Some j' => update_self (with_job (Holding j'));; process j' fn
  | _, _ => log NextTick;; defer (K_tick fn)
  end.

Definition call_getJob_cb (fn : GetJobCb) (err : option JsErr) (j : option Job.t) : M unit :=
  match fn with
  | StartCb f => start_cb f err j
  | ExternCb cb => log (GetJobResult cb err (Job.id <$> j))
  end.

(** [Worker.prototype.zpop]; [fn] is the callback [getJob] passes, resumed
    through [exec_cb]. *)
Definition zpop (key : Key) (fn : GetJobCb) : M unit :=
  w ← this;
  log (ZPop (client w) key);;
  defer (K_exec fn).

(** The callback [getJob] gives to [zpop]. *)
Definition zpop_cb (fn : GetJobCb) (err : option JsErr) (id : option Z) : M unit :=
  match err, id with
  | None, Some i => log (JobGet i fn);; defer (K_get fn)
  | _, _ => update_self (with_job NoJob);; call_getJob_cb fn err None
  end.

(** The callback of [exec] in [zpop]: [res[0]] is the reply of [zrange]. *)
Definition exec_cb (fn : GetJobCb) (err : option JsErr) (range : list Z) : M unit :=
  match err with
  | Some e => zpop_cb fn (Some e) None
  | None => zpop_cb fn None (head range)
  end.

(** The callback of [client.blpop] in [getJob]. *)
Definition blpop_cb (client : Conn) (fn : GetJobCb) (err : option JsErr) : M unit :=
  w ← this;
  if bool_decide (is_Some err) || negb (running w) then
    log (LPush client (jobs_key (type w)));;
    call_getJob_cb fn err None
  else
    update_self (with_job Reserving);;
    zpop (inactive_key (type w)) fn.

(** [Worker.prototype.getJob] *)
Definition getJob (fn : GetJobCb) : M unit :=
  w ← this;
  σ ← get;
  client ← match clients σ !! type w with
           | Some c => mret c
           | None =>
               c ← createClient;
               modify (fun σ => with_clients (<[type w := c]> (clients σ)) σ);;
               mret c
           end;
  if negb (running w) then
    call_getJob_cb fn (Some (EStr "Already Shutdown")) None
  else
    log (BLPop client (jobs_key (type w)));;
    defer (K_blpop client fn).

(** [Worker.prototype.start] *)
Definition start (fn : Fn) : M unit :=
  update_self (with_job NoJob);;
  w ← this;
  if negb (running w) then skip
  else getJob (StartCb fn).

(** [Worker.prototype.failed] *)
Definition failed (j : Job.t) (err : JsErr) (fn : Fn) : M unit :=
  log (JobCall (Job.id j) (OpError err));;
  log (JobCall (Job.id j) OpFailed);;
  defer (K_failed j fn).

Definition failed_cb (j : Job.t) (fn : Fn) : M unit :=
  log (JobCall (Job.id j) OpAttempt);;
  defer (K_attempt_failed j fn).

Definition with_delay (d : Z) (j : Job.t) : Job.t :=
  {| Job.id := Job.id j; Job.delay := d; Job.backoff := Job.backoff j;
     Job._getBackoffImpl := Job._getBackoffImpl j;
     Job.removeOnComplete := Job.removeOnComplete j |}.

(** The delay of a retry with backoff: the job's delay, or what the custom
    function returns; when it throws the error is reported and the job's
    delay stays. *)
Definition backoff_delay (j : Job.t) (attempts : Z) : M Z :=
  let delay := Job.delay j in
  match Job._getBackoffImpl j with
  | Some impl =>
      match impl attempts with
      | inl d => mret d
      | inr e => error e (Some j);; mret delay
      end
  | None => mret delay
  end.

(** The callback of [job.attempt] in [failed]. *)
Definition attempt_failed_cb (j : Job.t) (fn : Fn)
    (err : option JsErr) (remaining attempts max : Z) : M unit :=
  match err with
  | Some e => error e (Some j)
  | None =>
      (if negb (remaining =? 0) then
         if Job.backoff j then
           delay ← backoff_delay j attempts;
           log (JobCall (Job.id j) (OpDelay delay));;
           log (JobCall (Job.id j) OpUpdate);;
           log (JobCall (Job.id j) OpDelayed);;
           defer (K_emit (with_delay delay j) attempts)
         else
           log (JobCall (Job.id j) OpInactive);;
           defer (K_emit j attempts)
       else
         emit JobFailed j;;
         log (EventsEmit (Job.id j) "failed" PNone));;
      start fn
  end.

(** The [emit] closure of [failed]. *)
Definition emit_cb (j : Job.t) (attempts : Z) : M unit :=
  emit JobFailedAttempt j;;
  log (EventsEmit (Job.id j) "failed attempt" (PAttempts attempts)).

(** The text of the marker stored for a result that cannot be serialized:
    the coerced result stands between double quotes. *)
Definition invalid_result_message (s : string) : string :=
  "Invalid JSON Result: " +:+ dquote +:+ s +:+ dquote.

(** The [try]/[catch] of [process]: [true] when the block ends normally,
    [false] when the [catch] clause itself throws. *)
Definition store_result (j : Job.t) (result : Result) : M bool :=
  match JSON_stringify result with
  | Some s => log (JobCall (Job.id j) (OpSet "result" (FText s)));; mret true
  | None =>
      match to_string result with
      | Some s =>
          log (JobCall (Job.id j)
                 (OpSet "result"
                    (FJsonObject true (invalid_result_message s))));;
          mret true
      | None => mret false
      end
  end.

(** The [done] callback handed to the processor. *)
Definition done_cb (j : Job.t) (fn : Fn) (start_time : Z)
    (err : option JsErr) (result : Result) : M unit :=
  match err with
  | Some e => failed j e fn
  | None =>
      σ ← get;
      log (JobCall (Job.id j) (OpSet "duration" (FNum (clock σ - start_time))));;
      (if truthy result then store_result j result else mret true) ≫= λ ok : bool,
      if ok then
        log (JobCall (Job.id j) OpComplete);;
        defer (K_complete j result);;
        start fn
      else skip
  end.

Definition complete_cb (j : Job.t) (result : Result) : M unit :=
  log (JobCall (Job.id j) OpAttempt);;
  defer (K_attempt_complete j result).

Definition attempt_complete_cb (j : Job.t) (result : Result) : M unit :=
  emit JobComplete j;;
  log (EventsEmit (Job.id j) "complete" (PResult result));;
  if Job.removeOnComplete j then log (JobCall (Job.id j) OpRemove) else skip.

(** [fn(job, done, ctl)] in the callback of [job.active]. *)
Definition active_cb (j : Job.t) (fn : Fn) (start_time : Z) : M unit :=
  match fn with
  | Processor p =>
      log (Invoke p (Job.id j));;
      defer (K_done j fn start_time);;
      defer K_pause;;
      defer (K_resume fn)
  | ShutdownFn t cb => shutdown_fn t cb (Some j)
  end.

(** [Worker.prototype.resume] *)
Definition resume : M bool :=
  w ← this;
  if running w then mret false
  else update_self (with_running true);; mret true.

(** The control surface handed to the processor. *)
Definition ctl_pause (fn : CbId) (timeout : option Z) : M unit :=
  w ← this;
  let timeout' := match timeout with
                  | Some t => if t =? 0 then 5000 else t
                  | None => 5000
                  end in
  log (QueueShutdown fn timeout' (type w)).

Definition ctl_resume (fn : Fn) : M unit :=
  resume ≫= λ b : bool,
  if b then start fn else skip.

(** The error the grace timer fails a job with. *)
Definition shutdown_error : JsErr := EObj None (Some "Shutdown") (Some true).

(** The callback of [setTimeout] in [shutdown]; [timer] is its own handle,
    the value of [shutdownTimer]. *)
Definition timer_cb (timer : nat) (fn : CbId) : M unit :=
  w ← this;
  match job w with
  | Holding j => failed j shutdown_error (ShutdownFn (Some timer) fn)
  | Reserving => skip
  | NoJob => shutdown_fn (Some timer) fn None
  end.

(** The truthiness of the [timeout] argument. *)
Definition is_truthy (timeout : option Z) : bool :=
  match timeout with
  | Some t => negb (t =? 0)
  | None => false
  end.

(** [Worker.prototype.shutdown] *)
Definition shutdown (fn : CbId) (timeout : option Z) : M unit :=
  w ← this;
  if negb (running w) then shutdown_fn None fn None
  else
    update_self (with_running false);;
    match job w with
    | NoJob => shutdown_fn None fn None
    | _ =>
        σ ← get;
        let shutdownTimer := if is_truthy timeout then Some (fresh_timer σ) else None in
        on JobComplete shutdownTimer fn;;
        on JobFailed shutdownTimer fn;;
        on JobFailedAttempt shutdownTimer fn;;
        match timeout with
        | Some t =>
            if negb (t =? 0) then
              modify (with_fresh_timer (S (fresh_timer σ)));;
              log (SetTimeout (fresh_timer σ) t);;
              defer (K_timer (fresh_timer σ) fn)
            else skip
        | None => skip
        end
    end.

(** ** The event loop *)

(** The body of a continuation on the answer it is resumed with. *)
Definition resume_kont (k : Kont) (r : Resp) : option (M unit) :=
  match k, r with
  | K_blpop c fn, R_err err => Some (blpop_cb c fn err)
  | K_exec fn, R_exec err range => Some (exec_cb fn err range)
  | K_get fn, R_job err j => Some (call_getJob_cb fn err j)
  | K_tick fn, R_unit => Some (start fn)
  | K_active j fn s, R_unit => Some (active_cb j fn s)
  | K_done j fn s, R_done err result => Some (done_cb j fn s err result)
  | K_pause, R_pause cb t => Some (ctl_pause cb t)
  | K_resume fn, R_unit => Some (ctl_resume fn)
  | K_failed j fn, R_unit => Some (failed_cb j fn)
  | K_attempt_failed j fn, R_attempt e r a m => Some (attempt_failed_cb j fn e r a m)
  | K_emit j a, R_unit => Some (emit_cb j a)
  | K_complete j res, R_unit => Some (complete_cb j res)
  | K_attempt_complete j res, R_unit => Some (attempt_complete_cb j res)
  | K_timer t cb, R_unit => Some (timer_cb t cb)
  | _, _ => None
  end.

(** One turn of the loop: the [i]-th outstanding continuation is taken off
    and run on [r]. *)
Definition fire (i : nat) (r : Resp) (σ : World) : option World :=
  k ← pending σ !! i;
  m ← resume_kont k r;
  Some (exec m (with_pending (delete i (pending σ)) σ)).

(** What can happen to a worker between two turns. *)
Inductive Step :=
| Fire (i : nat) (r : Resp)
| Elapse (ms : Z)
| CallStart (fn : Fn)
| CallShutdown (fn : CbId) (timeout : option Z).

Definition step (s : Step) (σ : World) : option World :=
  match s with
  | Fire i r => fire i r σ
  | Elapse ms => if 0 <=? ms then Some (with_clock (clock σ + ms) σ) else None
  | CallStart fn => Some (exec (start fn) σ)
  | CallShutdown fn timeout => Some (exec (shutdown fn timeout) σ)
  end.

Fixpoint run (ss : list Step) (σ : World) : option World :=
  match ss with
  | [] => Some σ
  | s :: ss' => σ' ← step s σ; run ss' σ'
  end.

(** The part of the trace a computation adds. *)
Definition added (σ σ' : World) : list Action :=
  drop (length (trace σ)) (trace σ').

(** A process in which nothing has been created yet. *)
Definition boot : World :=
  {| self := {| type := ""; client := 0%nat; running := false; job := NoJob;
                listeners := [] |};
     Worker_client := None; clients := ∅; fresh_conn := 0%nat; fresh_timer := 0%nat;
     clock := 0; pending := []; trace := [] |}.

(** * Statements

    Predicates on traces and states used to state the properties, and the
    sample states they are tried on. *)

Definition is_zpop (a : Action) : bool :=
  match a with
  | ZPop _ _ => true
  | _ => false
  end.

(** Emissions, on the worker and on the per-job channel. *)
Definition is_event (a : Action) : bool :=
  match a with
  | EmitError _ _ | Emit _ _ | EventsEmit _ _ _ => true
  | _ => false
  end.

(** The worker is parked: a callback of the blocking wait is outstanding. *)
Definition parked (σ : World) : Prop :=
  exists c fn, K_blpop c fn ∈ pending σ.

(** What a call of [shutdown] without effect on the broker would be: the
    callback is invoked and the call adds no broker operation. *)
Definition silent_shutdown (σ : World) (fn : CbId) (timeout : option Z) : Prop :=
  let σ' := exec (shutdown fn timeout) σ in
  Callback fn ∈ added σ σ' /\ List.filter is_broker_op (added σ σ') = [].

(** The [catch] clause of [process] ends normally on [result]. *)
Definition storable (result : Result) : Prop :=
  truthy result = true -> JSON_stringify result = None -> is_Some (to_string result).

(** ** Sample states *)

(** A worker of type [email] in a fresh process. *)
Definition email_worker : World := exec (Worker_new "email") boot.

(** The same worker parked on the blocking wait. *)
Definition email_parked : World := exec (start (Processor 0)) email_worker.

(** A job with a backoff and a custom backoff function that throws. *)
Definition job42 : Job.t :=
  {| Job.id := 42; Job.delay := 1000; Job.backoff := true;
     Job._getBackoffImpl := Some (fun _ => inr (EObj (Some "at backoff") (Some "boom") None));
     Job.removeOnComplete := false |}.

(** The turns that take the parked worker to the point where the processor
    has been invoked on [job42]. *)
Definition claim_job42 : list Step :=
  [Fire 0 (R_err None); Fire 0 (R_exec None [42]);
   Fire 0 (R_job None (Some job42)); Fire 0 R_unit].

(** The worker holding [job42], the processor invoked. *)
Definition email_busy : World :=
  default email_parked (run claim_job42 email_parked).

(** A result with a cycle: [JSON.stringify] throws on it, string
    concatenation gives [[object Object]]. *)
Definition cyclic : Result :=
  {| truthy := true; JSON_stringify := None; to_string := Some "[object Object]" |}.

(** A result that serializes. *)
Definition sent : Result :=
  {| truthy := true; JSON_stringify := Some "{sent:true}"; to_string := Some "[object Object]" |}.

(** ** Further predicates *)

Definition is_blpop (a : Action) : bool :=
  match a with
  | BLPop _ _ => true
  | _ => false
  end.

Definition is_callback (a : Action) : bool :=
  match a with
  | Callback _ => true
  | _ => false
  end.

(** A computation took the state from [σ] to [σ'] without touching
    [running] and without requesting a blocking wait. *)
Definition quiet (σ σ' : World) : Prop :=
  running (self σ') = running (self σ) /\
  exists l, trace σ' = trace σ ++ l /\ List.filter is_blpop l = [].

(** The step resumes the [resume] closure of the control surface. *)
Definition fires_resume (σ : World) (s : Step) : bool :=
  match s with
  | Fire i _ =>
      match pending σ !! i with
      | Some (K_resume _) => true
      | _ => false
      end
  | _ => false
  end.

(** [run], restricted to schedules in which [resume] is not called. *)
Fixpoint run_without_resume (ss : list Step) (σ : World) : option World :=
  match ss with
  | [] => Some σ
  | s :: ss' =>
      if fires_resume σ s then None
      else σ' ← step s σ; run_without_resume ss' σ'
  end.

(** The fields [done] stores on the job. *)
Definition is_set (a : Action) : bool :=
  match a with
  | JobCall _ (OpSet _ _) => true
  | _ => false
  end.

(** * Properties *)

(** Unfold the monadic code of the worker on a state, leaving the registry
    and the list operations folded. *)
Ltac exec_m1 :=
  cbv beta iota zeta delta
    [exec eval M_ret M_bind mret mbind get modify skip this update_self log defer
     createClient Worker_new error shutdown_fn clear_shutdownTimer on
     process start_cb call_getJob_cb zpop zpop_cb exec_cb blpop_cb getJob start
     failed failed_cb backoff_delay attempt_failed_cb emit_cb store_result done_cb
     complete_cb attempt_complete_cb active_cb resume ctl_pause ctl_resume timer_cb
     shutdown is_truthy
     with_running with_job with_listeners with_self with_Worker_client with_clients
     with_fresh_conn with_fresh_timer with_clock with_pending with_trace
     self Worker_client clients fresh_conn fresh_timer clock pending trace
     type client running job listeners fst snd negb orb andb].

Ltac exec_m := exec_m1; repeat (progress cbn [older_job head for_each]; exec_m1).

(** Name the fields of a state and replace the facts known about them. *)
Ltac open_world σ :=
  destruct σ as [[ty cl rn jb ls] wc cs fc ft ck pd tr]; cbn in *; subst.

(** Bring a trace built by successive [log]s to the form [tr ++ [a; b; ...]]. *)
Ltac flatten := rewrite <- ?app_assoc; cbn [app].

Lemma added_app (σ σ' : World) (l : list Action) :
  trace σ' = trace σ ++ l -> added σ σ' = l.
Proof. intros H. unfold added. rewrite H. apply drop_app_length. Qed.

(** ** resume *)



(** ** shutdown *)

(** When the worker is idle, [shutdown] finishes at once through [_fn]. *)
Lemma shutdown_idle (σ : World) (fn : CbId) (timeout : option Z) :
  running (self σ) = true -> job (self σ) = NoJob ->
  exec (shutdown fn timeout) σ =
  exec (shutdown_fn None fn None) (with_self (with_running false (self σ)) σ).
Proof. intros Hr Hj. open_world σ. reflexivity. Qed.

(** C10: the lifecycle is the one boolean [running].  Once the listener of
    [shutdown] has run (the callback has been invoked, [running] is false
    and the blocking connection of the type has been closed and dropped
    from the registry), [resume()] returns true and sets [running] back to
    true, and the [resume] of the control surface starts a claim again: it
    creates a new blocking connection and parks on it. *)
Theorem resume_after_shutdown (σ : World) (timer : option nat) (cb : CbId)
    (arg : option Job.t) (fn : Fn) :
  running (self σ) = false ->
  older_job arg (job (self σ)) = false ->
  let σ1 := exec (shutdown_fn timer cb arg) σ in
  let c := fresh_conn σ1 in
  (last (trace σ1) = Some (Callback cb) /\
   running (self σ1) = false /\
   clients σ1 !! type (self σ1) = None /\
   (forall c0, clients σ !! type (self σ) = Some c0 -> Quit c0 ∈ added σ σ1)) /\
  eval resume σ1 = true /\
  running (self (exec resume σ1)) = true /\
  trace (exec (ctl_resume fn) σ1) =
    trace σ1 ++ [CreateClient c; BLPop c (jobs_key (type (self σ)))] /\
  pending (exec (ctl_resume fn) σ1) = pending σ1 ++ [K_blpop c (StartCb fn)].
Proof.
  intros Hr Ho. open_world σ. exec_m. cbn in Ho. rewrite Ho.
  destruct timer as [t|]; destruct (cs !! ty) as [c0|] eqn:Hc; exec_m;
    rewrite ?lookup_delete_eq; rewrite ?last_snoc.
  all: (split; [split; [reflexivity | split; [reflexivity | split; [reflexivity |]]] |]);
    try (intros c1 Hc1; injection Hc1 as <-);
    try discriminate.
  all: try (rewrite <- ?app_assoc; rewrite drop_app_length; set_solver).
  all: split; [reflexivity |]; split; [reflexivity |]; split; [| reflexivity].
  all: flatten; reflexivity.
Qed.

Lemma resume_after_shutdown_witness :
  let σ1 := exec (shutdown 7%nat None) email_parked in
  running (self σ1) = false /\
  clients σ1 !! "email" = None /\
  eval resume σ1 = true /\
  running (self (exec resume σ1)) = true /\
  trace (exec (ctl_resume (Processor 0)) σ1) =
    trace σ1 ++ [CreateClient 2%nat; BLPop 2%nat (jobs_key "email")].
Proof.
  pose proof (resume_after_shutdown
                (with_self (with_running false (self email_parked)) email_parked)
                None 7%nat None (Processor 0) eq_refl eq_refl) as H.
  cbv zeta in H. destruct H as [[_ [H1 [H2 _]]] [H3 [H4 [H5 _]]]].
  repeat split; assumption.
Defined.

(** C2, as stated, fails: after a first [shutdown] has completed, a second
    call pushes a token on the notification list before it invokes its
    callback. *)
Lemma second_shutdown_pushes_token :
  let σ1 := exec (shutdown 1%nat None) email_worker in
  running (self σ1) = false /\
  added σ1 (exec (shutdown 2%nat None) σ1) =
    [LPush 0%nat (jobs_key "email"); Callback 2%nat] /\
  ~ silent_shutdown σ1 2%nat None.
Proof.
  cbv zeta. split; [reflexivity |]. split; [reflexivity |].
  intros [_ H]. vm_compute in H. discriminate H.
Qed.

(** C2, amended: a call of [shutdown] on a worker that is not running goes
    straight to [_fn]: it pushes one recovery token on the notification
    list, closes the blocking connection of the type if the registry holds
    one, and invokes the callback.  When the registry holds none, which is
    how a completed shutdown leaves it, the push is the only broker
    operation. *)
Theorem shutdown_again (σ : World) (fn : CbId) (timeout : option Z) :
  running (self σ) = false ->
  let σ' := exec (shutdown fn timeout) σ in
  let token := LPush (client (self σ)) (jobs_key (type (self σ))) in
  trace σ' =
    trace σ ++ [token]
      ++ match clients σ !! type (self σ) with Some c => [Quit c] | None => [] end
      ++ [Callback fn] /\
  (clients σ !! type (self σ) = None ->
     List.filter is_broker_op (added σ σ') = [token]) /\
  running (self σ') = false /\
  pending σ' = pending σ.
Proof.
  intros Hr. open_world σ. exec_m.
  destruct (cs !! ty) as [c|] eqn:Hc; exec_m.
  - split; [flatten; reflexivity |]. split; [discriminate |]. split; reflexivity.
  - split; [flatten; reflexivity |]. split; [| split; reflexivity].
    intros _. unfold added. cbn [trace]. flatten.
    rewrite drop_app_length. reflexivity.
Qed.

Lemma shutdown_again_witness :
  let σ1 := exec (shutdown 1%nat None) email_worker in
  List.filter is_broker_op (added σ1 (exec (shutdown 2%nat None) σ1)) =
    [LPush 0%nat (jobs_key "email")].
Proof.
  pose proof (shutdown_again (exec (shutdown 1%nat None) email_worker) 2%nat None
                eq_refl) as H.
  cbv zeta in H. destruct H as [_ [H _]]. apply H. reflexivity.
Defined.

(** ** getJob *)

(** C4, as stated, fails: a worker that has just started is parked on the
    blocking wait with [job] still [null]. *)
Lemma parked_without_sentinel :
  parked email_parked /\
  last (trace email_parked) = Some (BLPop 1%nat (jobs_key "email")) /\
  job (self email_parked) = NoJob /\
  ~ (parked email_parked -> job (self email_parked) = Reserving).
Proof.
  assert (Hp : parked email_parked).
  { exists 1%nat, (StartCb (Processor 0)). vm_compute. left. }
  split; [exact Hp |]. split; [reflexivity |]. split; [reflexivity |].
  intros H. specialize (H Hp). vm_compute in H. discriminate H.
Qed.

(** C4, amended: [start] parks a running worker on the blocking wait with
    [job] reset to [null].  The temporary value is set when the wait has
    returned without error and the worker is still running, and it is set
    before the pop on the inactive set is requested; it stays while the job
    is loaded. *)
Theorem sentinel_after_wait (σ : World) (fn : Fn) (c0 : Conn) (k : GetJobCb) (i : Z) :
  running (self σ) = true ->
  (let σ' := exec (start fn) σ in
   exists c, pending σ' = pending σ ++ [K_blpop c (StartCb fn)] /\
             last (trace σ') = Some (BLPop c (jobs_key (type (self σ)))) /\
             job (self σ') = NoJob) /\
  (let σ' := exec (blpop_cb c0 k None) σ in
   σ' = exec (zpop (inactive_key (type (self σ))) k)
             (with_self (with_job Reserving (self σ)) σ) /\
   job (self σ') = Reserving /\
   trace σ' = trace σ ++ [ZPop (client (self σ)) (inactive_key (type (self σ)))] /\
   pending σ' = pending σ ++ [K_exec k]) /\
  (job (self σ) = Reserving ->
   let σ' := exec (exec_cb k None [i]) σ in
   job (self σ') = Reserving /\
   trace σ' = trace σ ++ [JobGet i k] /\
   pending σ' = pending σ ++ [K_get k]).
Proof.
  intros Hr. open_world σ. split; [| split].
  - exec_m. destruct (cs !! ty) as [c|] eqn:Hc; exec_m.
    + exists c. rewrite last_snoc. auto.
    + exists fc. rewrite last_snoc. auto.
  - exec_m. rewrite bool_decide_eq_false_2 by (intros [? ?]; discriminate).
    auto.
  - intros ->. exec_m. auto.
Qed.

Lemma sentinel_after_wait_witness :
  let σ' := exec (blpop_cb 1%nat (StartCb (Processor 0)) None) email_parked in
  job (self σ') = Reserving /\
  trace σ' = trace email_parked ++ [ZPop 0%nat (inactive_key "email")].
Proof.
  pose proof (sentinel_after_wait email_parked (Processor 0) 1%nat
                (StartCb (Processor 0)) 42 eq_refl) as H.
  cbv zeta in H. destruct H as [_ [[_ [H1 [H2 _]]] _]].
  split; assumption.
Defined.

(** C5, as stated, fails: when the wait returns without error on a worker
    that is no longer running, the callback of [getJob] is called with no
    error at all; nothing in the call tells a shutdown from an empty
    claim. *)
Lemma wake_up_stopped_returns_no_error :
  let σ := with_self (with_running false (self email_parked)) email_parked in
  let σ' := exec (blpop_cb 1%nat (ExternCb 5%nat) None) σ in
  added σ σ' = [LPush 1%nat (jobs_key "email"); GetJobResult 5%nat None None] /\
  ~ (exists e, GetJobResult 5%nat (Some e) None ∈ added σ σ').
Proof.
  cbv zeta. split; [reflexivity |].
  intros [e H]. vm_compute in H.
  apply elem_of_cons in H as [H | H]; [discriminate H |].
  apply elem_of_cons in H as [H | H]; [discriminate H |].
  apply elem_of_nil in H. exact H.
Qed.

(** C5, amended: when the blocking wait returns with an error, or the
    worker is no longer running on wake-up, the worker pushes a token back
    on the notification list through the blocking connection and calls the
    callback with the error of the wait and no job.  The error is absent
    when the wait itself succeeded.  No pop on the sorted set is requested
    and [job] is not touched.  The callback of [start] reports an error that
    is present and schedules [start] on the next tick. *)
Theorem wake_up_error_or_stopped (σ : World) (c : Conn) (fn : GetJobCb)
    (err : option JsErr) :
  is_Some err \/ running (self σ) = false ->
  let token := LPush c (jobs_key (type (self σ))) in
  let σ' := exec (blpop_cb c fn err) σ in
  σ' = exec (call_getJob_cb fn err None) (with_trace (trace σ ++ [token]) σ) /\
  job (self σ') = job (self σ) /\
  List.filter is_zpop (added σ σ') = [] /\
  match fn with
  | ExternCb cb =>
      trace σ' = trace σ ++ [token; GetJobResult cb err None] /\
      pending σ' = pending σ
  | StartCb f =>
      trace σ' =
        trace σ ++ [token]
          ++ match err with Some e => [EmitError (errorObj e) None] | None => [] end
          ++ [NextTick] /\
      pending σ' = pending σ ++ [K_tick f]
  end.
Proof.
  intros H. open_world σ.
  assert (Hc : bool_decide (is_Some err) || negb rn = true).
  { destruct H as [H | H].
    - rewrite bool_decide_eq_true_2 by exact H. reflexivity.
    - cbn in H. rewrite H. apply orb_true_r. }
  exec_m. cbv [orb negb] in Hc. rewrite Hc.
  destruct fn as [f | cb]; destruct err as [e |]; exec_m;
    (split; [reflexivity |]); (split; [reflexivity |]);
    (split; [unfold added; cbn [trace]; flatten; rewrite drop_app_length; reflexivity |]);
    split; first [reflexivity | flatten; reflexivity].
Qed.

Lemma wake_up_error_or_stopped_witness :
  let σ := with_self (with_running false (self email_parked)) email_parked in
  let σ' := exec (blpop_cb 1%nat (ExternCb 5%nat) None) σ in
  trace σ' = trace σ ++ [LPush 1%nat (jobs_key "email"); GetJobResult 5%nat None None].
Proof.
  pose proof (wake_up_error_or_stopped
                (with_self (with_running false (self email_parked)) email_parked)
                1%nat (ExternCb 5%nat) None (or_intror eq_refl)) as H.
  cbv zeta in H. destruct H as [_ [_ [_ [H _]]]]. exact H.
Defined.

(** ** The event loop *)

(** Resuming the continuation added last. *)
Lemma fire_last (σ : World) (ps : list Kont) (k : Kont) (r : Resp) (m : M unit) :
  pending σ = ps ++ [k] ->
  resume_kont k r = Some m ->
  fire (length ps) r σ = Some (exec m (with_pending ps σ)).
Proof.
  intros Hp Hk. unfold fire.
  rewrite Hp, list_lookup_middle by reflexivity. cbn.
  rewrite Hk. cbn. rewrite delete_middle, app_nil_r. reflexivity.
Qed.

Ltac fire_last_step :=
  erewrite fire_last; [reflexivity | reflexivity | reflexivity].

(** Close the equations on traces and lists of continuations that remain
    once the code has been run. *)
Ltac finish :=
  repeat split;
  first [ reflexivity
        | flatten; reflexivity
        | unfold added; cbn [trace]; flatten; rewrite drop_app_length; reflexivity ].

(** C6: when the wait returns without error on a running worker and the
    pop on the inactive set gives no id, [job] goes from the temporary
    value back to [null], the callback of [start] receives neither an error
    nor a job and schedules [start] on the next tick; the worker, still
    running, then parks on the blocking wait again.  Nothing is emitted on
    the way. *)
Theorem empty_pop_reparks (σ : World) (i : nat) (c : Conn) (fn : Fn) :
  running (self σ) = true ->
  pending σ !! i = Some (K_blpop c (StartCb fn)) ->
  let rest := delete i (pending σ) in
  let n := length rest in
  let ty := type (self σ) in
  exists σ1 σ2 σ3 c',
    fire i (R_err None) σ = Some σ1 /\
    fire n (R_exec None []) σ1 = Some σ2 /\
    fire n R_unit σ2 = Some σ3 /\
    job (self σ1) = Reserving /\
    job (self σ2) = NoJob /\
    trace σ2 = trace σ ++ [ZPop (client (self σ)) (inactive_key ty); NextTick] /\
    pending σ2 = rest ++ [K_tick fn] /\
    job (self σ3) = NoJob /\
    last (trace σ3) = Some (BLPop c' (jobs_key ty)) /\
    pending σ3 = rest ++ [K_blpop c' (StartCb fn)] /\
    List.filter is_event (added σ σ3) = [].
Proof.
  intros Hr Hp. open_world σ.
  destruct (cs !! ty) as [c'|] eqn:Hc; eexists _, _, _, _.
  all: split; [unfold fire; cbn [pending]; rewrite Hp; cbn; reflexivity |].
  all: exec_m; rewrite bool_decide_eq_false_2 by (intros [? ?]; discriminate).
  all: split; [fire_last_step |]; exec_m.
  all: split; [fire_last_step |]; exec_m.
  all: rewrite Hc; exec_m; rewrite ?last_snoc.
  all: finish.
Qed.

Lemma empty_pop_reparks_witness :
  exists σ1 σ2 σ3 c',
    fire 0 (R_err None) email_parked = Some σ1 /\
    fire 0 (R_exec None []) σ1 = Some σ2 /\
    fire 0 R_unit σ2 = Some σ3 /\
    job (self σ1) = Reserving /\
    job (self σ2) = NoJob /\
    trace σ2 = trace email_parked ++ [ZPop 0%nat (inactive_key "email"); NextTick] /\
    pending σ2 = [K_tick (Processor 0)] /\
    job (self σ3) = NoJob /\
    last (trace σ3) = Some (BLPop c' (jobs_key "email")) /\
    pending σ3 = [K_blpop c' (StartCb (Processor 0))] /\
    List.filter is_event (added email_parked σ3) = [].
Proof.
  exact (empty_pop_reparks email_parked 0 1%nat (Processor 0) eq_refl eq_refl).
Defined.

(** ** The callbacks of the processor *)

(** [start] only adds to the trace and to the outstanding continuations. *)
Lemma start_extends (σ : World) (fn : Fn) :
  exists l ks,
    trace (exec (start fn) σ) = trace σ ++ l /\
    pending (exec (start fn) σ) = pending σ ++ ks.
Proof.
  open_world σ. destruct rn; exec_m.
  - destruct (cs !! ty) as [c|]; exec_m; eexists _, _; finish.
  - exists [], []. rewrite !app_nil_r. split; reflexivity.
Qed.

(** C7: a failed job with attempts remaining, a backoff and a custom
    backoff function that throws on the attempts count: the worker emits
    [error] with the thrown value, keeps the delay stored on the job, sets
    and flushes it and requests the transition to delayed, whose callback
    emits [job failed attempt]; then it calls [start]. *)
Theorem backoff_throws_falls_back (σ : World) (j : Job.t) (fn : Fn)
    (remaining attempts max : Z) (impl : Z -> Z + JsErr) (e : JsErr) :
  remaining <> 0 ->
  Job.backoff j = true ->
  Job._getBackoffImpl j = Some impl ->
  impl attempts = inr e ->
  let i := Job.id j in
  let d := Job.delay j in
  let reported :=
    [EmitError (errorObj e) (Some i); JobCall i (OpDelay d); JobCall i OpUpdate;
     JobCall i OpDelayed] in
  let σ' := exec (attempt_failed_cb j fn None remaining attempts max) σ in
  σ' = exec (start fn)
         (with_pending (pending σ ++ [K_emit (with_delay d j) attempts])
            (with_trace (trace σ ++ reported) σ)) /\
  (exists l, trace σ' = trace σ ++ reported ++ l) /\
  (exists ks, pending σ' = pending σ ++ K_emit (with_delay d j) attempts :: ks) /\
  (forall σ2, listeners (self σ2) = [] ->
     trace (exec (emit_cb (with_delay d j) attempts) σ2) =
       trace σ2 ++ [Emit JobFailedAttempt i;
                    EventsEmit i "failed attempt" (PAttempts attempts)]).
Proof.
  intros Hrem Hb Hi He. destruct j as [id dl bo im rm]. cbn in Hb, Hi. subst bo im.
  apply Z.eqb_neq in Hrem. cbv zeta. cbn [Job.id Job.delay].
  assert (Heq : exec (attempt_failed_cb
                   {| Job.id := id; Job.delay := dl; Job.backoff := true;
                      Job._getBackoffImpl := Some impl; Job.removeOnComplete := rm |}
                   fn None remaining attempts max) σ =
                exec (start fn)
                  (with_pending
                     (pending σ ++
                      [K_emit (with_delay dl
                                 {| Job.id := id; Job.delay := dl; Job.backoff := true;
                                    Job._getBackoffImpl := Some impl;
                                    Job.removeOnComplete := rm |}) attempts])
                     (with_trace
                        (trace σ ++
                         [EmitError (errorObj e) (Some id); JobCall id (OpDelay dl);
                          JobCall id OpUpdate; JobCall id OpDelayed]) σ))).
  { unfold attempt_failed_cb, backoff_delay. cbn [Job.backoff Job._getBackoffImpl Job.id Job.delay].
    rewrite Hrem, He. open_world σ. exec_m. cbn [fmap option_fmap option_map Job.id].
    destruct rn; exec_m; [destruct (cs !! ty); exec_m |]; flatten; reflexivity. }
  split; [exact Heq |]. rewrite Heq.
  destruct (start_extends
              (with_pending
                 (pending σ ++
                  [K_emit (with_delay dl
                             {| Job.id := id; Job.delay := dl; Job.backoff := true;
                                Job._getBackoffImpl := Some impl;
                                Job.removeOnComplete := rm |}) attempts])
                 (with_trace
                    (trace σ ++
                     [EmitError (errorObj e) (Some id); JobCall id (OpDelay dl);
                      JobCall id OpUpdate; JobCall id OpDelayed]) σ)) fn)
    as (l & ks & Ht & Hp).
  split; [| split].
  - exists l. rewrite Ht. cbn [trace with_pending with_trace]. rewrite <- app_assoc. reflexivity.
  - exists ks. rewrite Hp. cbn [pending with_pending with_trace]. rewrite <- app_assoc. reflexivity.
  - intros σ2 Hl. open_world σ2. unfold emit_cb, emit. exec_m. finish.
Qed.

Lemma backoff_throws_falls_back_witness :
  exists l,
    trace (exec (attempt_failed_cb job42 (Processor 0) None 2 1 3) email_parked) =
      trace email_parked
        ++ [EmitError (EObj (Some "at backoff") (Some "boom") None) (Some 42);
            JobCall 42 (OpDelay 1000); JobCall 42 OpUpdate; JobCall 42 OpDelayed]
        ++ l.
Proof.
  assert (H : 2 <> 0) by discriminate.
  exact (proj1 (proj2 (backoff_throws_falls_back email_parked job42 (Processor 0) 2 1 3
                          (fun _ => inr (EObj (Some "at backoff") (Some "boom") None))
                          (EObj (Some "at backoff") (Some "boom") None)
                          H eq_refl eq_refl eq_refl))).
Defined.

(** The marker on a run: the worker claims [job42], the processor reports
    the cyclic result after 12 ms, and the text stored is [Invalid JSON
    Result: ] followed by [[object Object]] between two double quotes (the
    character of code 34). *)
Lemma marker_on_cyclic_result :
  exists σ',
    run (claim_job42 ++ [Elapse 12; Fire 0 (R_done None cyclic)]) email_parked = Some σ' /\
    added email_parked σ' =
      [ZPop 0%nat (inactive_key "email"); JobGet 42 (StartCb (Processor 0));
       JobCall 42 OpActive; Invoke 0 42;
       JobCall 42 (OpSet "duration" (FNum 12));
       JobCall 42
         (OpSet "result"
            (FJsonObject true
               ("Invalid JSON Result: "
                  +:+ String (Ascii.ascii_of_nat 34) ("[object Object]" +:+ String (Ascii.ascii_of_nat 34) EmptyString))));
       JobCall 42 OpComplete; BLPop 1%nat (jobs_key "email")].
Proof.
  eexists. split; [vm_compute; reflexivity | reflexivity].
Qed.



(** C1, as stated, fails: when the processor reports success the worker is
    parked on the next blocking wait while the callback of the transition to
    complete is still outstanding. *)
Lemma rearmed_before_complete_resolves :
  exists σ',
    run (claim_job42 ++ [Fire 0 (R_done None sent)]) email_parked = Some σ' /\
    pending σ' =
      [K_pause; K_resume (Processor 0); K_complete job42 sent;
       K_blpop 1%nat (StartCb (Processor 0))] /\
    last (trace σ') = Some (BLPop 1%nat (jobs_key "email")) /\
    ~ (parked σ' -> forall r, ~ In (K_complete job42 r) (pending σ')).
Proof.
  eexists. split; [vm_compute; reflexivity |]. split; [reflexivity |].
  split; [reflexivity |].
  intros H. apply (H ltac:(exists 1%nat, (StartCb (Processor 0)); set_solver) sent).
  cbn. auto.
Qed.

(** On a running worker [start] parks on the blocking wait of its type,
    on the connection of the registry or on a new one. *)
Lemma start_parks (σ : World) (fn : Fn) :
  running (self σ) = true ->
  exists post c,
    trace (exec (start fn) σ) = trace σ ++ post ++ [BLPop c (jobs_key (type (self σ)))] /\
    (post = [] \/ post = [CreateClient c]) /\
    pending (exec (start fn) σ) = pending σ ++ [K_blpop c (StartCb fn)] /\
    job (self (exec (start fn) σ)) = NoJob.
Proof.
  intros Hr. open_world σ. exec_m.
  destruct (cs !! ty) as [c|]; exec_m.
  - exists [], c. auto.
  - exists [CreateClient fc], fc. split; [flatten; reflexivity | auto].
Qed.

(** The success branch of [done]: the fields are stored, the transition to
    complete is requested, and [start] is called. *)
Lemma done_cb_success (σ : World) (j : Job.t) (fn : Fn) (start_time : Z)
    (result : Result) :
  storable result ->
  exists pre,
    exec (done_cb j fn start_time None result) σ =
      exec (start fn)
        (with_pending (pending σ ++ [K_complete j result])
           (with_trace (trace σ ++ pre ++ [JobCall (Job.id j) OpComplete]) σ)) /\
    List.filter is_event pre = [].
Proof.
  intros Hs. unfold storable in Hs. unfold done_cb, store_result.
  destruct (truthy result);
    [destruct (JSON_stringify result) as [s|];
       [| destruct (Hs eq_refl eq_refl) as [s ->]] |].
  - exists [JobCall (Job.id j) (OpSet "duration" (FNum (clock σ - start_time)));
            JobCall (Job.id j) (OpSet "result" (FText s))].
    split; [| reflexivity]. open_world σ. exec_m. flatten. reflexivity.
  - exists [JobCall (Job.id j) (OpSet "duration" (FNum (clock σ - start_time)));
            JobCall (Job.id j)
              (OpSet "result" (FJsonObject true (invalid_result_message s)))].
    split; [| reflexivity]. open_world σ. exec_m. flatten. reflexivity.
  - exists [JobCall (Job.id j) (OpSet "duration" (FNum (clock σ - start_time)))].
    split; [| reflexivity]. open_world σ. exec_m. flatten. reflexivity.
Qed.

(** C1, amended: when the processor reports success on a running worker,
    the worker requests the transition to complete and, in the same turn
    and without waiting for its callback, calls [start], which parks on the
    blocking wait.  The request of the transition comes before the request
    of the wait; the callback of the transition, and with it the emission of
    [job complete], is still outstanding when the turn ends. *)
Theorem rearm_follows_complete_request (σ : World) (j : Job.t) (fn : Fn)
    (start_time : Z) (result : Result) :
  running (self σ) = true ->
  storable result ->
  let σ' := exec (done_cb j fn start_time None result) σ in
  exists pre post c,
    trace σ' =
      trace σ ++ pre ++ [JobCall (Job.id j) OpComplete] ++ post
        ++ [BLPop c (jobs_key (type (self σ)))] /\
    (post = [] \/ post = [CreateClient c]) /\
    pending σ' = pending σ ++ [K_complete j result; K_blpop c (StartCb fn)] /\
    List.filter is_event (added σ σ') = [].
Proof.
  intros Hr Hs. cbv zeta.
  destruct (done_cb_success σ j fn start_time result Hs) as (pre & -> & Hpre).
  destruct (start_parks
              (with_pending (pending σ ++ [K_complete j result])
                 (with_trace (trace σ ++ pre ++ [JobCall (Job.id j) OpComplete]) σ))
              fn Hr) as (post & c & Ht & Hpost & Hp & _).
  exists pre, post, c.
  assert (Htr : trace (exec (start fn)
                  (with_pending (pending σ ++ [K_complete j result])
                     (with_trace (trace σ ++ pre ++ [JobCall (Job.id j) OpComplete]) σ))) =
                trace σ ++ pre ++ [JobCall (Job.id j) OpComplete] ++ post
                  ++ [BLPop c (jobs_key (type (self σ)))]).
  { rewrite Ht. cbn [trace with_pending with_trace self]. rewrite <- !app_assoc. reflexivity. }
  split; [exact Htr |]. split; [exact Hpost |]. split.
  - rewrite Hp. cbn [pending with_pending with_trace]. rewrite <- app_assoc. reflexivity.
  - rewrite (added_app _ _ _ Htr). rewrite !List.filter_app, Hpre.
    destruct Hpost as [-> | ->]; reflexivity.
Qed.

Lemma rearm_follows_complete_request_witness :
  exists pre post c,
    trace (exec (done_cb job42 (Processor 0) 0 None sent) email_worker) =
      trace email_worker ++ pre ++ [JobCall 42 OpComplete] ++ post
        ++ [BLPop c (jobs_key "email")] /\
    (post = [] \/ post = [CreateClient c]) /\
    pending (exec (done_cb job42 (Processor 0) 0 None sent) email_worker) =
      pending email_worker ++ [K_complete job42 sent; K_blpop c (StartCb (Processor 0))] /\
    List.filter is_event
      (added email_worker (exec (done_cb job42 (Processor 0) 0 None sent) email_worker)) = [].
Proof.
  assert (Hs : storable sent).
  { intros _ H. discriminate H. }
  exact (rearm_follows_complete_request email_worker job42 (Processor 0) 0 sent
           eq_refl Hs).
Defined.

(** ** The grace timer *)

(** With the three listeners of one call of [shutdown] registered, an
    emission of a lifecycle event runs the [_fn] of that call once. *)
Lemma emit_to_shutdown_listener (σ : World) (ev : JobEvent) (j : Job.t)
    (l : option nat * CbId) :
  listeners (self σ) = [(JobComplete, l); (JobFailed, l); (JobFailedAttempt, l)] ->
  emit ev j σ = (log (Emit ev (Job.id j));; shutdown_fn l.1 l.2 (Some j)) σ.
Proof.
  intros H. unfold emit. cbv [mbind M_bind log modify this].
  cbn [self with_trace listeners]. rewrite H. cbn [for_each fst snd].
  cbv [mbind M_bind skip mret M_ret].
  destruct ev; repeat case_decide; try congruence;
    match goal with
    | |- context [shutdown_fn ?a ?b ?c ?s] => destruct (shutdown_fn a b c s) as [[] ?]
    end; reflexivity.
Qed.

(** C3: [shutdown] called with a non-zero timeout on a running worker that
    holds a job arms a timer.  When the timer fires and the job is still
    held, the job is failed with [{error: true, message: "Shutdown"}] (an
    object with no [stack], the message [Shutdown] and [error] set) and
    [_fn] travels as the [fn] of [failed].  When the attempt is accounted
    for without error, the lifecycle event of the failure ([job failed] with
    no attempt left, [job failed attempt] once the job is delayed or
    inactive again) runs the listener of the shutdown, which clears the
    timer, pushes the recovery token, closes the blocking connection and
    invokes the callback.  A timer that fires while [job] is the temporary
    value [true] does nothing. *)
Theorem grace_timer_fails_job (σ : World) (fn : CbId) (t : Z) (j : Job.t)
    (remaining attempts max : Z) :
  running (self σ) = true ->
  job (self σ) = Holding j ->
  listeners (self σ) = [] ->
  t <> 0 ->
  let n := length (pending σ) in
  let timer := fresh_timer σ in
  let i := Job.id j in
  let retry := negb (remaining =? 0) in
  let forced :=
    [SetTimeout timer t;
     JobCall i (OpError (EObj None (Some "Shutdown") (Some true)));
     JobCall i OpFailed] in
  let closed :=
    match clients σ !! type (self σ) with Some c => [Quit c] | None => [] end in
  (exists σ1,
     run [CallShutdown fn (Some t); Fire n R_unit] σ = Some σ1 /\
     trace σ1 = trace σ ++ forced /\
     pending σ1 = pending σ ++ [K_failed j (ShutdownFn (Some timer) fn)]) /\
  (exists σ' l,
     run ([CallShutdown fn (Some t); Fire n R_unit; Fire n R_unit;
           Fire n (R_attempt None remaining attempts max)]
            ++ (if retry then [Fire n R_unit] else [])) σ = Some σ' /\
     trace σ' =
       trace σ ++ forced ++ [JobCall i OpAttempt] ++ l
         ++ [Emit (if retry then JobFailedAttempt else JobFailed) i;
             ClearTimeout timer;
             LPush (client (self σ)) (jobs_key (type (self σ)))]
         ++ closed
         ++ [Callback fn;
             EventsEmit i (if retry then "failed attempt" else "failed")
               (if retry then PAttempts attempts else PNone)] /\
     running (self σ') = false /\
     job (self σ') = NoJob /\
     listeners (self σ') = []) /\
  (forall σ0 i0 tm cb,
     pending σ0 !! i0 = Some (K_timer tm cb) ->
     job (self σ0) = Reserving ->
     fire i0 R_unit σ0 = Some (with_pending (delete i0 (pending σ0)) σ0)).
Proof.
  intros Hr Hj Hl Ht. apply Z.eqb_neq in Ht. open_world σ. split; [| split].
  - eexists. cbn [run step mbind option_bind]. exec_m. rewrite Ht. exec_m.
    split. { erewrite fire_last; [| reflexivity | reflexivity]. cbn. reflexivity. }
    exec_m. finish.
  - cbn [run step mbind option_bind app]. exec_m. rewrite Ht. exec_m.
    erewrite fire_last; [| reflexivity | reflexivity]. cbn [mbind option_bind]. exec_m.
    erewrite fire_last; [| reflexivity | reflexivity]. cbn [mbind option_bind]. exec_m.
    erewrite fire_last; [| reflexivity | reflexivity]. cbn [mbind option_bind]. exec_m.
    destruct (remaining =? 0) eqn:Hrem; exec_m.
    + rewrite (emit_to_shutdown_listener _ _ _ (Some ft, fn)) by reflexivity.
      exec_m. rewrite Z.eqb_refl. exec_m.
      destruct (cs !! ty) as [c|] eqn:Hc; exec_m;
        (eexists _, []; split; [reflexivity |]); exec_m;
        (split; [flatten; reflexivity |]); repeat split.
    + destruct (Job.backoff j);
        [destruct (Job._getBackoffImpl j) as [impl|];
           [destruct (impl attempts) as [d|e] |] |];
        exec_m.
      all: cbn [run step mbind option_bind].
      all: erewrite fire_last; [| reflexivity | reflexivity].
      all: cbn [mbind option_bind]; exec_m.
      all: rewrite (emit_to_shutdown_listener _ _ _ (Some ft, fn)) by reflexivity.
      all: exec_m; cbn [with_delay Job.id fmap option_fmap option_map].
      all: destruct (cs !! ty) as [c|] eqn:Hc; exec_m.
      1,2: eexists _, [JobCall (Job.id j) (OpDelay d); JobCall (Job.id j) OpUpdate;
                       JobCall (Job.id j) OpDelayed].
      3,4: eexists _, [EmitError (errorObj e) (Some (Job.id j));
                       JobCall (Job.id j) (OpDelay (Job.delay j));
                       JobCall (Job.id j) OpUpdate; JobCall (Job.id j) OpDelayed].
      5,6: eexists _, [JobCall (Job.id j) (OpDelay (Job.delay j));
                       JobCall (Job.id j) OpUpdate; JobCall (Job.id j) OpDelayed].
      7,8: eexists _, [JobCall (Job.id j) OpInactive].
      all: (split; [reflexivity |]); exec_m.
      all: (split; [flatten; reflexivity |]); repeat split.
  - intros σ0 i0 tm cb Hp Hres. unfold fire. rewrite Hp. cbn.
    destruct σ0 as [[? ? ? ? ?] ? ? ? ? ? ? ?]. cbn in Hres. subst. reflexivity.
Qed.

Lemma grace_timer_fails_job_witness :
  exists σ' l,
    run [CallShutdown 9%nat (Some 500); Fire 3 R_unit; Fire 3 R_unit;
         Fire 3 (R_attempt None 0 3 3)] email_busy = Some σ' /\
    trace σ' =
      trace email_busy
        ++ [SetTimeout 0 500;
            JobCall 42 (OpError (EObj None (Some "Shutdown") (Some true)));
            JobCall 42 OpFailed]
        ++ [JobCall 42 OpAttempt] ++ l
        ++ [Emit JobFailed 42; ClearTimeout 0; LPush 0%nat (jobs_key "email")]
        ++ [Quit 1%nat]
        ++ [Callback 9%nat; EventsEmit 42 "failed" PNone] /\
    running (self σ') = false /\
    job (self σ') = NoJob /\
    listeners (self σ') = [].
Proof.
  assert (Ht : 500 <> 0) by discriminate.
  exact (proj1 (proj2 (grace_timer_fails_job email_busy 9%nat 500 job42 0 3 3
                          eq_refl eq_refl eq_refl Ht))).
Defined.

(** * Further properties of the worker *)

(** ** The constructor and the error channel *)

(** X1: the workers of a process share the connection they keep their
    books with: the constructor creates it for the first worker only; a
    worker constructed later gets the same connection and creates none.
    Every worker starts running and without a job. *)
Theorem workers_share_client (σ : World) (ty1 ty2 : string) :
  let σ1 := exec (Worker_new ty1) σ in
  let σ2 := exec (Worker_new ty2) σ1 in
  client (self σ2) = client (self σ1) /\
  Worker_client σ2 = Some (client (self σ1)) /\
  trace σ2 = trace σ1 /\
  running (self σ2) = true /\
  job (self σ2) = NoJob /\
  type (self σ2) = ty2.
Proof.
  open_world σ. destruct wc as [c|]; exec_m; repeat split.
Qed.

(** X2: the payload of the [error] event.  A value with a non-empty
    [stack] is reduced to its [stack] and [message], every other field is
    dropped; any other value is passed as it is; reducing twice changes
    nothing.  The emission is all [error] does. *)
Theorem error_payload (e : JsErr) (j : option Job.t) (σ : World) :
  errorObj (errorObj e) = errorObj e /\
  (has_stack e = true ->
     exists st msg, errorObj e = EObj (Some st) msg None /\ st <> "") /\
  (has_stack e = false -> errorObj e = e) /\
  exec (error e j) σ =
    with_trace (trace σ ++ [EmitError (errorObj e) (Job.id <$> j)]) σ.
Proof.
  unfold errorObj, has_stack. split; [| split; [| split]].
  - destruct e as [s | [st|] msg er]; try reflexivity.
    destruct (String.eqb st "") eqn:E; cbn; rewrite ?E; reflexivity.
  - destruct e as [s | [st|] msg er]; try discriminate.
    intros H. rewrite H. exists st, msg. split; [reflexivity |].
    intros ->. discriminate H.
  - destruct e as [s | [st|] msg er]; try reflexivity.
    intros H. rewrite H. reflexivity.
  - reflexivity.
Qed.

Lemma error_payload_witness :
  errorObj (EObj (Some "at worker.js") (Some "boom") (Some true)) =
    EObj (Some "at worker.js") (Some "boom") None /\
  errorObj shutdown_error = shutdown_error.
Proof.
  split.
  - destruct (proj1 (proj2 (error_payload
                              (EObj (Some "at worker.js") (Some "boom") (Some true))
                              None boot)) eq_refl) as (st & msg & H & _).
    reflexivity.
  - exact (proj1 (proj2 (proj2 (error_payload shutdown_error None boot))) eq_refl).
Defined.

(** ** A stopped worker does not park *)

Lemma exec_bind {A B} (m : M A) (k : A -> M B) (σ : World) :
  exec (m ≫= k) σ = exec (k (eval m σ)) (exec m σ).
Proof. unfold exec, eval. cbv [mbind M_bind]. destruct (m σ). reflexivity. Qed.

Lemma quiet_refl (σ : World) : quiet σ σ.
Proof. split; [reflexivity |]. exists []. rewrite app_nil_r. auto. Qed.

Lemma quiet_trans (σ1 σ2 σ3 : World) : quiet σ1 σ2 -> quiet σ2 σ3 -> quiet σ1 σ3.
Proof.
  intros [Hr1 (l1 & Ht1 & Hf1)] [Hr2 (l2 & Ht2 & Hf2)]. split; [congruence |].
  exists (l1 ++ l2). rewrite Ht2, Ht1, <- app_assoc, List.filter_app, Hf1, Hf2. auto.
Qed.

Lemma quiet_bind {A} (m : M A) (k : A -> M unit) (σ : World) :
  quiet σ (exec m σ) ->
  (forall a, quiet (exec m σ) (exec (k a) (exec m σ))) ->
  quiet σ (exec (m ≫= k) σ).
Proof.
  intros H1 H2. rewrite exec_bind. eapply quiet_trans; [exact H1 | apply H2].
Qed.

Lemma quiet_log (a : Action) (σ : World) :
  is_blpop a = false -> quiet σ (exec (log a) σ).
Proof.
  intros Ha. split; [reflexivity |]. exists [a]. split; [reflexivity |].
  cbn. rewrite Ha. reflexivity.
Qed.

(** Close a goal [quiet σ σ'] on states that have been computed. *)
Ltac solve_quiet :=
  split; [reflexivity |]; cbn [trace];
  first [ exists []; split; [rewrite app_nil_r; reflexivity | reflexivity]
        | eexists; split; [flatten; reflexivity | reflexivity] ].

Lemma quiet_shutdown_fn (σ : World) (t : option nat) (cb : CbId) (arg : option Job.t) :
  quiet σ (exec (shutdown_fn t cb arg) σ).
Proof.
  open_world σ. exec_m.
  destruct (older_job arg jb); [exec_m; solve_quiet |].
  destruct t; destruct (cs !! ty); exec_m; solve_quiet.
Qed.

Lemma quiet_for_each {A} (f : A -> M unit) (l : list A) :
  (forall x σ, quiet σ (exec (f x) σ)) ->
  forall σ, quiet σ (exec (for_each f l) σ).
Proof.
  intros Hf. induction l as [| x l IH]; intros σ.
  - apply quiet_refl.
  - cbn [for_each]. rewrite exec_bind.
    eapply quiet_trans; [apply Hf | apply IH].
Qed.

Lemma quiet_emit (ev : JobEvent) (j : Job.t) (σ : World) :
  quiet σ (exec (emit ev j) σ).
Proof.
  unfold emit. rewrite exec_bind.
  apply (quiet_trans _ (exec (log (Emit ev (Job.id j))) σ));
    [apply quiet_log; reflexivity |].
  rewrite exec_bind. eapply quiet_trans; [apply quiet_refl |].
  apply quiet_for_each. intros x σ0.
  destruct (decide (x.1 = ev)); [apply quiet_shutdown_fn | apply quiet_refl].
Qed.

Lemma quiet_start_stopped (fn : Fn) (σ : World) :
  running (self σ) = false -> quiet σ (exec (start fn) σ).
Proof. intros H. open_world σ. exec_m. solve_quiet. Qed.

Lemma quiet_failed (j : Job.t) (e : JsErr) (fn : Fn) (σ : World) :
  quiet σ (exec (failed j e fn) σ).
Proof. open_world σ. exec_m. solve_quiet. Qed.

Lemma quiet_call_getJob_cb (fn : GetJobCb) (err : option JsErr) (j : option Job.t)
    (σ : World) :
  quiet σ (exec (call_getJob_cb fn err j) σ).
Proof.
  open_world σ. destruct fn, err, j; exec_m; solve_quiet.
Qed.

Lemma quiet_blpop_cb (c : Conn) (fn : GetJobCb) (err : option JsErr) (σ : World) :
  running (self σ) = false -> quiet σ (exec (blpop_cb c fn err) σ).
Proof.
  intros H. open_world σ. exec_m.
  destruct (bool_decide (is_Some err)); destruct fn, err; exec_m; solve_quiet.
Qed.

Lemma quiet_exec_cb (fn : GetJobCb) (err : option JsErr) (range : list Z) (σ : World) :
  quiet σ (exec (exec_cb fn err range) σ).
Proof.
  open_world σ. destruct fn, err, range; exec_m; solve_quiet.
Qed.

Lemma quiet_done_cb (j : Job.t) (fn : Fn) (s : Z) (err : option JsErr)
    (result : Result) (σ : World) :
  running (self σ) = false -> quiet σ (exec (done_cb j fn s err result) σ).
Proof.
  intros H. destruct err as [e|]; [apply quiet_failed |].
  unfold done_cb, store_result.
  destruct (truthy result), (JSON_stringify result), (to_string result);
    open_world σ; exec_m; solve_quiet.
Qed.

Lemma quiet_attempt_failed_cb (j : Job.t) (fn : Fn) (err : option JsErr)
    (remaining attempts max : Z) (σ : World) :
  running (self σ) = false ->
  quiet σ (exec (attempt_failed_cb j fn err remaining attempts max) σ).
Proof.
  intros H. unfold attempt_failed_cb.
  destruct err as [e|]; [open_world σ; exec_m; solve_quiet |].
  destruct (remaining =? 0); cbn [negb].
  - rewrite !exec_bind.
    assert (H1 : quiet σ (exec (emit JobFailed j) σ)) by apply quiet_emit.
    assert (H2 : quiet (exec (emit JobFailed j) σ)
                   (exec (log (EventsEmit (Job.id j) "failed" PNone))
                      (exec (emit JobFailed j) σ)))
      by (apply quiet_log; reflexivity).
    pose proof (quiet_trans _ _ _ H1 H2) as H3.
    eapply quiet_trans; [exact H3 |].
    apply quiet_start_stopped. destruct H3 as [-> _]. exact H.
  - unfold backoff_delay.
    destruct (Job.backoff j); [destruct (Job._getBackoffImpl j) as [impl|];
      [destruct (impl attempts) |] |]; open_world σ; exec_m; solve_quiet.
Qed.

Lemma quiet_emit_cb (j : Job.t) (attempts : Z) (σ : World) :
  quiet σ (exec (emit_cb j attempts) σ).
Proof.
  unfold emit_cb. rewrite exec_bind.
  eapply quiet_trans; [apply quiet_emit | apply quiet_log; reflexivity].
Qed.

Lemma quiet_attempt_complete_cb (j : Job.t) (result : Result) (σ : World) :
  quiet σ (exec (attempt_complete_cb j result) σ).
Proof.
  unfold attempt_complete_cb.
  apply quiet_bind; [apply quiet_emit | intros _].
  apply quiet_bind; [apply quiet_log; reflexivity | intros _].
  destruct (Job.removeOnComplete j); [apply quiet_log; reflexivity | apply quiet_refl].
Qed.

Lemma quiet_timer_cb (t : nat) (cb : CbId) (σ : World) :
  quiet σ (exec (timer_cb t cb) σ).
Proof.
  unfold timer_cb. rewrite exec_bind. cbv [eval this fst].
  destruct (job (self σ)); [apply quiet_shutdown_fn | apply quiet_refl | apply quiet_failed].
Qed.

Lemma quiet_fire (σ σ' : World) (i : nat) (k : Kont) (r : Resp) :
  running (self σ) = false ->
  pending σ !! i = Some k ->
  (forall fn, k <> K_resume fn) ->
  fire i r σ = Some σ' ->
  quiet σ σ'.
Proof.
  intros Hr Hp Hk Hf.
  unfold fire in Hf. rewrite Hp in Hf. cbn in Hf.
  set (σ0 := with_pending (delete i (pending σ)) σ) in *.
  assert (Hq0 : quiet σ σ0).
  { split; [reflexivity |]. exists []. rewrite app_nil_r. auto. }
  assert (Hr0 : running (self σ0) = false) by exact Hr.
  clearbody σ0. eapply quiet_trans; [exact Hq0 |]. clear Hq0 Hp Hr σ.
  destruct k, r; cbn in Hf; try discriminate Hf; injection Hf as <-.
  - apply quiet_blpop_cb, Hr0.
  - apply quiet_exec_cb.
  - apply quiet_call_getJob_cb.
  - apply quiet_start_stopped, Hr0.
  - destruct fn; [open_world σ0; exec_m; solve_quiet | apply quiet_shutdown_fn].
  - apply quiet_done_cb, Hr0.
  - open_world σ0. exec_m. solve_quiet.
  - exfalso. eapply Hk. reflexivity.
  - open_world σ0. exec_m. solve_quiet.
  - apply quiet_attempt_failed_cb, Hr0.
  - apply quiet_emit_cb.
  - open_world σ0. exec_m. solve_quiet.
  - apply quiet_attempt_complete_cb.
  - apply quiet_timer_cb.
Qed.

Lemma quiet_step (σ σ' : World) (s : Step) :
  running (self σ) = false ->
  fires_resume σ s = false ->
  step s σ = Some σ' ->
  quiet σ σ'.
Proof.
  intros Hr Hn Hs. destruct s as [i r | ms | fn | fn timeout]; cbn in Hs.
  - cbn in Hn. destruct (pending σ !! i) as [k|] eqn:Hp.
    + eapply quiet_fire; [exact Hr | exact Hp | | exact Hs].
      intros fn ->. discriminate Hn.
    + unfold fire in Hs. rewrite Hp in Hs. discriminate Hs.
  - destruct (0 <=? ms); [| discriminate Hs]. injection Hs as <-.
    split; [reflexivity |]. exists []. rewrite app_nil_r. auto.
  - injection Hs as <-. apply quiet_start_stopped, Hr.
  - injection Hs as <-. open_world σ. exec_m.
    destruct (cs !! ty); exec_m; solve_quiet.
Qed.

(** X3: once [running] is false, no schedule of callbacks, timers, clock
    ticks and further calls of [start] and [shutdown] makes the worker
    request a blocking wait, and [running] stays false, as long as the
    [resume] of the control surface is not called. *)
Theorem stopped_worker_never_parks (ss : list Step) (σ σ' : World) :
  running (self σ) = false ->
  run_without_resume ss σ = Some σ' ->
  run ss σ = Some σ' /\
  running (self σ') = false /\
  List.filter is_blpop (added σ σ') = [].
Proof.
  intros Hr Hrun.
  assert (H : run ss σ = Some σ' /\ quiet σ σ').
  { revert σ Hr Hrun. induction ss as [| s ss IH]; intros σ Hr Hrun.
    - injection Hrun as <-. split; [reflexivity | apply quiet_refl].
    - cbn in Hrun. destruct (fires_resume σ s) eqn:Hn; [discriminate Hrun |].
      cbn [run]. destruct (step s σ) as [σ1|] eqn:Hs; [| discriminate Hrun].
      cbn in Hrun |- *.
      pose proof (quiet_step _ _ _ Hr Hn Hs) as Hq.
      assert (Hr1 : running (self σ1) = false) by (destruct Hq as [-> _]; exact Hr).
      destruct (IH σ1 Hr1 Hrun) as [Hrun' Hq']. split; [exact Hrun' |].
      eapply quiet_trans; [exact Hq | exact Hq']. }
  destruct H as [H [Hq (l & Hl & Hb)]]. split; [exact H |]. split; [congruence |].
  rewrite (added_app _ _ _ Hl). exact Hb.
Qed.

Lemma stopped_worker_never_parks_witness :
  let σ := exec (shutdown 7%nat None) email_busy in
  exists σ',
    run [Fire 0 (R_done None sent); Fire 2 R_unit; Fire 2 R_unit; CallStart (Processor 0)] σ
      = Some σ' /\
    running (self σ') = false /\
    List.filter is_blpop (added σ σ') = [].
Proof.
  cbv zeta. eexists.
  apply (stopped_worker_never_parks
           [Fire 0 (R_done None sent); Fire 2 R_unit; Fire 2 R_unit; CallStart (Processor 0)]
           (exec (shutdown 7%nat None) email_busy)).
  - reflexivity.
  - vm_compute. reflexivity.
Defined.

(** ** Schedules *)

(** Resuming a continuation in the middle of the list. *)
Lemma fire_at (σ : World) (ps qs : list Kont) (k : Kont) (r : Resp) (m : M unit) :
  pending σ = ps ++ k :: qs ->
  resume_kont k r = Some m ->
  fire (length ps) r σ = Some (exec m (with_pending (ps ++ qs) σ)).
Proof.
  intros Hp Hk. unfold fire.
  rewrite Hp, list_lookup_middle by reflexivity. cbn.
  rewrite Hk. cbn. rewrite delete_middle. reflexivity.
Qed.

(** Resume the continuation at the position the index names. *)
Ltac fire_here :=
  erewrite fire_at; [| cbn [pending]; reflexivity | reflexivity];
  cbn [mbind option_bind].

(** ** The failure path *)

(** X4: when the accounting of the attempt fails after a failure of the
    processor, the worker emits [error] and stops there: [start] is not
    called, nothing is outstanding from the job, and the worker still holds
    the job it held. *)
Theorem attempt_error_stalls (σ : World) (ps qs : list Kont) (j : Job.t) (fn : Fn)
    (s : Z) (err e : JsErr) (result : Result) (remaining attempts max : Z) :
  pending σ = ps ++ K_done j fn s :: qs ->
  let n := length (ps ++ qs) in
  let i := Job.id j in
  exists σ',
    run [Fire (length ps) (R_done (Some err) result); Fire n R_unit;
         Fire n (R_attempt (Some e) remaining attempts max)] σ = Some σ' /\
    trace σ' =
      trace σ ++ [JobCall i (OpError err); JobCall i OpFailed; JobCall i OpAttempt;
                  EmitError (errorObj e) (Some i)] /\
    pending σ' = ps ++ qs /\
    self σ' = self σ.
Proof.
  intros Hp. open_world σ. cbn [run step mbind option_bind].
  fire_here. exec_m.
  erewrite fire_last; [| reflexivity | reflexivity]. cbn [mbind option_bind]. exec_m.
  erewrite fire_last; [| reflexivity | reflexivity]. cbn [mbind option_bind]. exec_m.
  eexists. split; [reflexivity |]. cbn [fmap option_fmap option_map]. finish.
Qed.

Lemma attempt_error_stalls_witness :
  exists σ',
    run [Fire 0 (R_done (Some (EStr "boom")) sent); Fire 2 R_unit;
         Fire 2 (R_attempt (Some (EStr "redis")) 0 0 0)] email_busy = Some σ' /\
    trace σ' =
      trace email_busy
        ++ [JobCall 42 (OpError (EStr "boom")); JobCall 42 OpFailed; JobCall 42 OpAttempt;
            EmitError (EStr "redis") (Some 42)] /\
    pending σ' = [K_pause; K_resume (Processor 0)] /\
    self σ' = self email_busy.
Proof.
  exact (attempt_error_stalls email_busy [] [K_pause; K_resume (Processor 0)] job42
           (Processor 0) 0 (EStr "boom") (EStr "redis") sent 0 0 0 eq_refl).
Defined.

(** X5: a failure of the processor with no attempt left: the error is
    attached, the job is failed and the attempt accounted for; then the
    worker emits [job failed] and [failed], requests neither [delayed] nor
    [inactive], and parks again. *)
Theorem failure_without_attempts_left (σ : World) (ps qs : list Kont) (j : Job.t)
    (fn : Fn) (s : Z) (err : JsErr) (result : Result) (attempts max : Z) :
  running (self σ) = true ->
  listeners (self σ) = [] ->
  pending σ = ps ++ K_done j fn s :: qs ->
  let n := length (ps ++ qs) in
  let i := Job.id j in
  exists σ' post c,
    run [Fire (length ps) (R_done (Some err) result); Fire n R_unit;
         Fire n (R_attempt None 0 attempts max)] σ = Some σ' /\
    trace σ' =
      trace σ ++ [JobCall i (OpError err); JobCall i OpFailed; JobCall i OpAttempt;
                  Emit JobFailed i; EventsEmit i "failed" PNone]
        ++ post ++ [BLPop c (jobs_key (type (self σ)))] /\
    (post = [] \/ post = [CreateClient c]) /\
    pending σ' = ps ++ qs ++ [K_blpop c (StartCb fn)] /\
    job (self σ') = NoJob.
Proof.
  intros Hr Hl Hp. open_world σ. cbn [run step mbind option_bind].
  fire_here. exec_m.
  erewrite fire_last; [| reflexivity | reflexivity]. cbn [mbind option_bind]. exec_m.
  erewrite fire_last; [| reflexivity | reflexivity]. cbn [mbind option_bind].
  unfold attempt_failed_cb. rewrite Z.eqb_refl. cbn [negb]. unfold emit. exec_m.
  destruct (cs !! ty) as [c|]; exec_m.
  - eexists _, [], c. split; [reflexivity |]. exec_m. rewrite <- ?app_assoc. auto.
  - eexists _, [CreateClient fc], fc. split; [reflexivity |]. exec_m.
    rewrite <- ?app_assoc. auto.
Qed.

Lemma failure_without_attempts_left_witness :
  exists σ' post c,
    run [Fire 0 (R_done (Some (EStr "boom")) sent); Fire 2 R_unit;
         Fire 2 (R_attempt None 0 3 3)] email_busy = Some σ' /\
    trace σ' =
      trace email_busy
        ++ [JobCall 42 (OpError (EStr "boom")); JobCall 42 OpFailed; JobCall 42 OpAttempt;
            Emit JobFailed 42; EventsEmit 42 "failed" PNone]
        ++ post ++ [BLPop c (jobs_key "email")] /\
    (post = [] \/ post = [CreateClient c]) /\
    pending σ' = [K_pause; K_resume (Processor 0); K_blpop c (StartCb (Processor 0))] /\
    job (self σ') = NoJob.
Proof.
  exact (failure_without_attempts_left email_busy [] [K_pause; K_resume (Processor 0)]
           job42 (Processor 0) 0 (EStr "boom") sent 3 3 eq_refl eq_refl eq_refl).
Defined.

(** X6: a failure with attempts left and no backoff: the job is requested
    back to [inactive] and the worker parks again at once; [job failed
    attempt] and [failed attempt], with the attempts count, are emitted
    when the transition has resolved, after the next wait was requested. *)
Theorem retry_without_backoff_requeues (σ : World) (ps qs : list Kont) (j : Job.t)
    (fn : Fn) (remaining attempts max : Z) :
  running (self σ) = true ->
  listeners (self σ) = [] ->
  Job.backoff j = false ->
  remaining <> 0 ->
  pending σ = ps ++ K_attempt_failed j fn :: qs ->
  let n := length (ps ++ qs) in
  let i := Job.id j in
  exists σ' post c,
    run [Fire (length ps) (R_attempt None remaining attempts max); Fire n R_unit] σ
      = Some σ' /\
    trace σ' =
      trace σ ++ [JobCall i OpInactive] ++ post
        ++ [BLPop c (jobs_key (type (self σ)));
            Emit JobFailedAttempt i;
            EventsEmit i "failed attempt" (PAttempts attempts)] /\
    (post = [] \/ post = [CreateClient c]) /\
    pending σ' = ps ++ qs ++ [K_blpop c (StartCb fn)] /\
    job (self σ') = NoJob.
Proof.
  intros Hr Hl Hb Hrem Hp. apply Z.eqb_neq in Hrem. open_world σ.
  cbn [run step mbind option_bind].
  fire_here. unfold attempt_failed_cb. rewrite Hrem, Hb. exec_m.
  destruct (cs !! ty) as [c|]; exec_m.
  - rewrite <- (app_assoc (ps ++ qs) [K_emit j attempts]). cbn [app].
    erewrite (fire_at _ (ps ++ qs) [K_blpop c (StartCb fn)]);
      [| cbn [pending]; reflexivity | reflexivity].
    cbn [mbind option_bind]. unfold emit_cb, emit. exec_m.
    eexists _, [], c. split; [reflexivity |]. exec_m. rewrite <- ?app_assoc. auto.
  - rewrite <- (app_assoc (ps ++ qs) [K_emit j attempts]). cbn [app].
    erewrite (fire_at _ (ps ++ qs) [K_blpop fc (StartCb fn)]);
      [| cbn [pending]; reflexivity | reflexivity].
    cbn [mbind option_bind]. unfold emit_cb, emit. exec_m.
    eexists _, [CreateClient fc], fc. split; [reflexivity |]. exec_m.
    rewrite <- ?app_assoc. auto.
Qed.

Lemma retry_without_backoff_requeues_witness :
  let j := {| Job.id := 7; Job.delay := 0; Job.backoff := false;
              Job._getBackoffImpl := None; Job.removeOnComplete := false |} in
  let σ := with_pending [K_attempt_failed j (Processor 0)] email_worker in
  exists σ' post c,
    run [Fire 0 (R_attempt None 2 1 3); Fire 0 R_unit] σ = Some σ' /\
    trace σ' =
      trace σ ++ [JobCall 7 OpInactive] ++ post
        ++ [BLPop c (jobs_key "email"); Emit JobFailedAttempt 7;
            EventsEmit 7 "failed attempt" (PAttempts 1)] /\
    (post = [] \/ post = [CreateClient c]) /\
    pending σ' = [K_blpop c (StartCb (Processor 0))] /\
    job (self σ') = NoJob.
Proof.
  assert (H : 2 <> 0) by discriminate.
  exact (retry_without_backoff_requeues
           (with_pending
              [K_attempt_failed
                 {| Job.id := 7; Job.delay := 0; Job.backoff := false;
                    Job._getBackoffImpl := None; Job.removeOnComplete := false |}
                 (Processor 0)] email_worker)
           [] []
           {| Job.id := 7; Job.delay := 0; Job.backoff := false;
              Job._getBackoffImpl := None; Job.removeOnComplete := false |}
           (Processor 0) 2 1 3 eq_refl eq_refl eq_refl H eq_refl).
Defined.

(** X7: a failure with attempts left and a backoff: without a custom
    function the job's own delay is set again; with a custom function that
    returns, the value it returns for the attempts count is set, and no
    error is emitted.  In both cases the delay is flushed and the job goes
    to [delayed]. *)
Theorem backoff_delay_applied (σ : World) (j : Job.t) (fn : Fn)
    (remaining attempts max : Z) :
  remaining <> 0 ->
  Job.backoff j = true ->
  let i := Job.id j in
  let after d :=
    exec (start fn)
      (with_pending (pending σ ++ [K_emit (with_delay d j) attempts])
         (with_trace
            (trace σ ++ [JobCall i (OpDelay d); JobCall i OpUpdate; JobCall i OpDelayed])
            σ)) in
  let σ' := exec (attempt_failed_cb j fn None remaining attempts max) σ in
  (Job._getBackoffImpl j = None -> σ' = after (Job.delay j)) /\
  (forall impl d,
     Job._getBackoffImpl j = Some impl -> impl attempts = inl d -> σ' = after d).
Proof.
  intros Hrem Hb. apply Z.eqb_neq in Hrem. cbv zeta.
  unfold attempt_failed_cb, backoff_delay. rewrite Hrem, Hb. cbn [negb].
  split.
  - intros ->. open_world σ. exec_m.
    destruct rn; exec_m; [destruct (cs !! ty); exec_m |]; flatten; reflexivity.
  - intros impl d -> ->. open_world σ. exec_m.
    destruct rn; exec_m; [destruct (cs !! ty); exec_m |]; flatten; reflexivity.
Qed.

Lemma backoff_delay_applied_witness :
  let j := {| Job.id := 7; Job.delay := 1000; Job.backoff := true;
              Job._getBackoffImpl := Some (fun attempts => inl (attempts * 500));
              Job.removeOnComplete := false |} in
  exec (attempt_failed_cb j (Processor 0) None 2 3 5) email_parked =
  exec (start (Processor 0))
    (with_pending (pending email_parked ++ [K_emit (with_delay 1500 j) 3])
       (with_trace
          (trace email_parked
             ++ [JobCall 7 (OpDelay 1500); JobCall 7 OpUpdate; JobCall 7 OpDelayed])
          email_parked)).
Proof.
  assert (H : 2 <> 0) by discriminate.
  exact (proj2 (backoff_delay_applied email_parked
                  {| Job.id := 7; Job.delay := 1000; Job.backoff := true;
                     Job._getBackoffImpl := Some (fun attempts => inl (attempts * 500));
                     Job.removeOnComplete := false |}
                  (Processor 0) 2 3 5 H eq_refl)
           (fun attempts => inl (attempts * 500)) 1500 eq_refl eq_refl).
Defined.

(** ** Claiming *)

(** X8: [getJob] on a worker that is not running requests no wait and
    calls back with [Already Shutdown]; but it has looked up the blocking
    connection of the type first, and creates and registers one when the
    registry has none. *)
Theorem getJob_stopped_still_connects (σ : World) (fn : GetJobCb) :
  running (self σ) = false ->
  let ty := type (self σ) in
  let σ' := exec (getJob fn) σ in
  let created :=
    match clients σ !! ty with Some _ => [] | None => [CreateClient (fresh_conn σ)] end in
  let err := EStr "Already Shutdown" in
  clients σ' !! ty = Some (default (fresh_conn σ) (clients σ !! ty)) /\
  self σ' = self σ /\
  match fn with
  | ExternCb cb =>
      trace σ' = trace σ ++ created ++ [GetJobResult cb (Some err) None] /\
      pending σ' = pending σ
  | StartCb f =>
      trace σ' = trace σ ++ created ++ [EmitError err None; NextTick] /\
      pending σ' = pending σ ++ [K_tick f]
  end.
Proof.
  intros Hr. open_world σ. exec_m.
  destruct (cs !! ty) as [c|] eqn:Hc; destruct fn as [f | cb]; exec_m;
    rewrite ?Hc, ?lookup_insert_eq; cbn [default]; finish.
Qed.

Lemma getJob_stopped_still_connects_witness :
  let σ := exec (shutdown 7%nat None) email_parked in
  let σ' := exec (getJob (ExternCb 5%nat)) σ in
  clients σ !! "email" = None /\
  clients σ' !! "email" = Some 2%nat /\
  trace σ' =
    trace σ ++ [CreateClient 2%nat; GetJobResult 5%nat (Some (EStr "Already Shutdown")) None].
Proof.
  pose proof (getJob_stopped_still_connects (exec (shutdown 7%nat None) email_parked)
                (ExternCb 5%nat) eq_refl) as H.
  cbv zeta in H. destruct H as [H1 [_ [H2 _]]].
  split; [reflexivity |]. split; [exact H1 | exact H2].
Defined.

(** X9: once the pop has given an id, a load that fails, or that yields no
    job, loses the claim: the worker emits [error] when there is one and
    schedules [start]; no transition is requested for the id and the
    processor is not invoked.  An error of the pop itself is reported the
    same way and no load is requested, whatever the reply holds. *)
Theorem failed_load_drops_claim (σ : World) (ps qs : list Kont) (fn : Fn) (id : Z)
    (ids : list Z) (err : option JsErr) (oj : option Job.t) (e : JsErr) :
  pending σ = ps ++ K_exec (StartCb fn) :: qs ->
  is_Some err \/ oj = None ->
  let n := length (ps ++ qs) in
  let report :=
    match err with Some e' => [EmitError (errorObj e') (Job.id <$> oj)] | None => [] end in
  (exists σ',
     run [Fire (length ps) (R_exec None (id :: ids)); Fire n (R_job err oj)] σ = Some σ' /\
     trace σ' = trace σ ++ [JobGet id (StartCb fn)] ++ report ++ [NextTick] /\
     pending σ' = ps ++ qs ++ [K_tick fn] /\
     self σ' = self σ) /\
  (exists σ',
     run [Fire (length ps) (R_exec (Some e) (id :: ids))] σ = Some σ' /\
     trace σ' = trace σ ++ [EmitError (errorObj e) None; NextTick] /\
     pending σ' = ps ++ qs ++ [K_tick fn] /\
     job (self σ') = NoJob).
Proof.
  intros Hp Hor. open_world σ. cbn [run step mbind option_bind]. split.
  - fire_here. exec_m.
    erewrite fire_last; [| reflexivity | reflexivity]. cbn [mbind option_bind].
    destruct err as [e'|], oj as [j0|];
      try (destruct Hor as [[? Hn] | Hn]; discriminate Hn);
      exec_m; eexists; (split; [reflexivity |]); exec_m;
      rewrite <- ?app_assoc; auto.
  - fire_here. exec_m. eexists. split; [reflexivity |]. exec_m.
    rewrite <- ?app_assoc. auto.
Qed.

Lemma failed_load_drops_claim_witness :
  let σ := default email_parked (run [Fire 0 (R_err None)] email_parked) in
  exists σ',
    run [Fire 0 (R_exec None [42]); Fire 0 (R_job (Some (EStr "gone")) None)] σ = Some σ' /\
    trace σ' =
      trace σ ++ [JobGet 42 (StartCb (Processor 0))]
        ++ [EmitError (EStr "gone") None] ++ [NextTick] /\
    pending σ' = [K_tick (Processor 0)] /\
    self σ' = self σ.
Proof.
  exact (proj1 (failed_load_drops_claim
                  (default email_parked (run [Fire 0 (R_err None)] email_parked))
                  [] [] (Processor 0) 42 [] (Some (EStr "gone")) None (EStr "x")
                  eq_refl (or_introl (ex_intro _ (EStr "gone") eq_refl)))).
Defined.

(** X10: once the pop has been requested the claim goes through whether or
    not the worker is still running: the first id of the reply is loaded,
    the job becomes the current job, it is requested [active] with the
    clock read as start time, and the processor is invoked on it with the
    [done] callback and the control surface. *)
Theorem popped_job_reaches_processor (σ : World) (ps qs : list Kont) (p : nat)
    (id : Z) (ids : list Z) (j : Job.t) :
  pending σ = ps ++ K_exec (StartCb (Processor p)) :: qs ->
  let n := length (ps ++ qs) in
  exists σ',
    run [Fire (length ps) (R_exec None (id :: ids)); Fire n (R_job None (Some j));
         Fire n R_unit] σ = Some σ' /\
    trace σ' =
      trace σ ++ [JobGet id (StartCb (Processor p)); JobCall (Job.id j) OpActive;
                  Invoke p (Job.id j)] /\
    pending σ' =
      ps ++ qs ++ [K_done j (Processor p) (clock σ); K_pause; K_resume (Processor p)] /\
    job (self σ') = Holding j /\
    running (self σ') = running (self σ).
Proof.
  intros Hp. open_world σ. cbn [run step mbind option_bind].
  fire_here. exec_m.
  erewrite fire_last; [| reflexivity | reflexivity]. cbn [mbind option_bind]. exec_m.
  erewrite fire_last; [| reflexivity | reflexivity]. cbn [mbind option_bind]. exec_m.
  eexists. split; [reflexivity |]. exec_m. rewrite <- ?app_assoc. auto.
Qed.

Lemma popped_job_reaches_processor_witness :
  let σ := exec (shutdown 7%nat None)
             (default email_parked (run [Fire 0 (R_err None)] email_parked)) in
  exists σ',
    run [Fire 0 (R_exec None [42]); Fire 0 (R_job None (Some job42)); Fire 0 R_unit] σ
      = Some σ' /\
    trace σ' =
      trace σ ++ [JobGet 42 (StartCb (Processor 0)); JobCall 42 OpActive; Invoke 0 42] /\
    pending σ' = [K_done job42 (Processor 0) 0; K_pause; K_resume (Processor 0)] /\
    job (self σ') = Holding job42 /\
    running (self σ') = false.
Proof.
  exact (popped_job_reaches_processor
           (exec (shutdown 7%nat None)
              (default email_parked (run [Fire 0 (R_err None)] email_parked)))
           [] [] 0 42 [] job42 eq_refl).
Defined.

(** ** Completion *)

(** X11: the duration stored on success is the time between the call of
    [process], before the job is requested [active], and the call of
    [done]: it covers the activation as well as the processor, and it is
    stored first, whatever the result. *)
Theorem duration_spans_activation (σ : World) (ps qs : list Kont) (p : nat)
    (j : Job.t) (a b : Z) (result : Result) :
  pending σ = ps ++ K_get (StartCb (Processor p)) :: qs ->
  0 <= a -> 0 <= b ->
  let n := length (ps ++ qs) in
  let i := Job.id j in
  exists σ' l,
    run [Fire (length ps) (R_job None (Some j)); Elapse a; Fire n R_unit; Elapse b;
         Fire n (R_done None result)] σ = Some σ' /\
    trace σ' =
      trace σ ++ [JobCall i OpActive; Invoke p i;
                  JobCall i (OpSet "duration" (FNum (a + b)))] ++ l.
Proof.
  intros Hp Ha Hb. apply Z.leb_le in Ha, Hb. open_world σ.
  cbn [run step mbind option_bind].
  fire_here. exec_m. rewrite Ha. cbn [mbind option_bind]. exec_m.
  erewrite fire_last; [| reflexivity | reflexivity]. cbn [mbind option_bind]. exec_m.
  rewrite Hb. cbn [mbind option_bind]. exec_m.
  rewrite <- !(app_assoc (ps ++ qs)). cbn [app].
  erewrite (fire_at _ (ps ++ qs) [K_pause; K_resume (Processor p)]);
    [| cbn [pending]; reflexivity | reflexivity].
  cbn [mbind option_bind]. unfold done_cb, store_result.
  destruct (truthy result), (JSON_stringify result), (to_string result), rn;
    exec_m; try (destruct (cs !! ty); exec_m);
    eexists _, _; (split; [reflexivity |]); exec_m;
    replace (ck + a + b - ck) with (a + b) by lia; flatten; reflexivity.
Qed.

Lemma duration_spans_activation_witness :
  let σ := default email_parked
             (run [Fire 0 (R_err None); Fire 0 (R_exec None [42])] email_parked) in
  exists σ' l,
    run [Fire 0 (R_job None (Some job42)); Elapse 30; Fire 0 R_unit; Elapse 200;
         Fire 0 (R_done None sent)] σ = Some σ' /\
    trace σ' =
      trace σ ++ [JobCall 42 OpActive; Invoke 0 42;
                  JobCall 42 (OpSet "duration" (FNum 230))] ++ l.
Proof.
  assert (Ha : 0 <= 30) by discriminate.
  assert (Hb : 0 <= 200) by discriminate.
  exact (duration_spans_activation
           (default email_parked
              (run [Fire 0 (R_err None); Fire 0 (R_exec None [42])] email_parked))
           [] [] 0 job42 30 200 sent eq_refl Ha Hb).
Defined.

(** X12: what [done] stores for a result.  A falsy result stores no
    [result] field; a truthy result that serializes stores its JSON text;
    in both cases the transition to complete is requested and [start] is
    called.  When the result neither serializes nor coerces to a string, the
    [catch] clause throws: only the duration has been stored, the transition
    to complete is not requested and [start] is not called. *)
Theorem done_stores_result (σ : World) (j : Job.t) (fn : Fn) (start_time : Z)
    (result : Result) :
  let i := Job.id j in
  let duration := JobCall i (OpSet "duration" (FNum (clock σ - start_time))) in
  let completing stored :=
    exec (start fn)
      (with_pending (pending σ ++ [K_complete j result])
         (with_trace (trace σ ++ duration :: stored ++ [JobCall i OpComplete]) σ)) in
  let σ' := exec (done_cb j fn start_time None result) σ in
  (truthy result = false -> σ' = completing []) /\
  (forall s, truthy result = true -> JSON_stringify result = Some s ->
     σ' = completing [JobCall i (OpSet "result" (FText s))]) /\
  (truthy result = true -> JSON_stringify result = None -> to_string result = None ->
     σ' = with_trace (trace σ ++ [duration]) σ).
Proof.
  cbv zeta. unfold done_cb, store_result. split; [| split].
  - intros ->. open_world σ. exec_m. flatten. reflexivity.
  - intros s -> ->. open_world σ. exec_m. flatten. reflexivity.
  - intros -> -> ->. open_world σ. exec_m. reflexivity.
Qed.

Lemma done_stores_result_witness :
  let unprintable :=
    {| truthy := true; JSON_stringify := None; to_string := None |} in
  exec (done_cb job42 (Processor 0) 0 None unprintable) email_busy =
  with_trace (trace email_busy ++ [JobCall 42 (OpSet "duration" (FNum 0))]) email_busy.
Proof.
  exact (proj2 (proj2 (done_stores_result email_busy job42 (Processor 0) 0
                         {| truthy := true; JSON_stringify := None; to_string := None |}))
           eq_refl eq_refl eq_refl).
Defined.

(** X13: when the transition to complete has resolved the worker accounts
    for the attempt, and when that has resolved it emits [job complete],
    then [complete] with the result on the channel of the job, and only
    then, if the job asks for it, requests its removal.  The state of the
    worker is not touched. *)
Theorem completion_events_then_remove (σ : World) (ps qs : list Kont) (j : Job.t)
    (result : Result) :
  listeners (self σ) = [] ->
  pending σ = ps ++ K_complete j result :: qs ->
  let n := length (ps ++ qs) in
  let i := Job.id j in
  exists σ',
    run [Fire (length ps) R_unit; Fire n R_unit] σ = Some σ' /\
    trace σ' =
      trace σ ++ [JobCall i OpAttempt; Emit JobComplete i;
                  EventsEmit i "complete" (PResult result)]
        ++ (if Job.removeOnComplete j then [JobCall i OpRemove] else []) /\
    pending σ' = ps ++ qs /\
    self σ' = self σ.
Proof.
  intros Hl Hp. open_world σ. cbn [run step mbind option_bind].
  fire_here. exec_m.
  erewrite fire_last; [| reflexivity | reflexivity]. cbn [mbind option_bind].
  unfold attempt_complete_cb, emit. exec_m.
  destruct (Job.removeOnComplete j); exec_m;
    eexists; (split; [reflexivity |]); exec_m; flatten; auto.
Qed.

Lemma completion_events_then_remove_witness :
  let σ := default email_busy (run [Fire 0 (R_done None sent)] email_busy) in
  exists σ',
    run [Fire 2 R_unit; Fire 3 R_unit] σ = Some σ' /\
    trace σ' =
      trace σ ++ [JobCall 42 OpAttempt; Emit JobComplete 42;
                  EventsEmit 42 "complete" (PResult sent)] ++ [] /\
    pending σ' = [K_pause; K_resume (Processor 0); K_blpop 1%nat (StartCb (Processor 0))] /\
    self σ' = self σ.
Proof.
  exact (completion_events_then_remove
           (default email_busy (run [Fire 0 (R_done None sent)] email_busy))
           [K_pause; K_resume (Processor 0)] [K_blpop 1%nat (StartCb (Processor 0))]
           job42 sent eq_refl eq_refl).
Defined.

(** ** Shutdown while a job is in flight *)

(** The success branch of [done] stores fields on the job and nothing
    else before it requests the transition to complete. *)
Lemma done_cb_sets (σ : World) (j : Job.t) (fn : Fn) (start_time : Z)
    (result : Result) :
  storable result ->
  exists pre,
    exec (done_cb j fn start_time None result) σ =
      exec (start fn)
        (with_pending (pending σ ++ [K_complete j result])
           (with_trace (trace σ ++ pre ++ [JobCall (Job.id j) OpComplete]) σ)) /\
    forallb is_set pre = true.
Proof.
  intros Hs. unfold storable in Hs. unfold done_cb, store_result.
  destruct (truthy result);
    [destruct (JSON_stringify result) as [s|];
       [| destruct (Hs eq_refl eq_refl) as [s ->]] |].
  - exists [JobCall (Job.id j) (OpSet "duration" (FNum (clock σ - start_time)));
            JobCall (Job.id j) (OpSet "result" (FText s))].
    split; [| reflexivity]. open_world σ. exec_m. flatten. reflexivity.
  - exists [JobCall (Job.id j) (OpSet "duration" (FNum (clock σ - start_time)));
            JobCall (Job.id j)
              (OpSet "result" (FJsonObject true (invalid_result_message s)))].
    split; [| reflexivity]. open_world σ. exec_m. flatten. reflexivity.
  - exists [JobCall (Job.id j) (OpSet "duration" (FNum (clock σ - start_time)))].
    split; [| reflexivity]. open_world σ. exec_m. flatten. reflexivity.
Qed.

(** X14: [shutdown] with a timeout, called while a job is being processed,
    waits: it sets [running] to false, registers its listener and arms the
    timer, and touches neither the broker nor its callback.  When the
    processor then succeeds the worker does not park again; on [job
    complete] the listener cancels the timer, which never fires, pushes the
    recovery token, closes the blocking connection and invokes the callback.
    The job is not failed. *)
Theorem shutdown_waits_for_job (σ : World) (ps qs : list Kont) (j : Job.t) (fn : Fn)
    (s : Z) (result : Result) (cb : CbId) (t : Z) :
  running (self σ) = true ->
  job (self σ) = Holding j ->
  listeners (self σ) = [] ->
  pending σ = ps ++ K_done j fn s :: qs ->
  storable result ->
  t <> 0 ->
  let n := length (ps ++ qs) in
  let i := Job.id j in
  let timer := fresh_timer σ in
  let closed :=
    match clients σ !! type (self σ) with Some c => [Quit c] | None => [] end in
  exists σ' pre,
    run [CallShutdown cb (Some t); Fire (length ps) (R_done None result);
         Fire (S n) R_unit; Fire (S n) R_unit] σ = Some σ' /\
    forallb is_set pre = true /\
    trace σ' =
      trace σ ++ [SetTimeout timer t] ++ pre
        ++ [JobCall i OpComplete; JobCall i OpAttempt; Emit JobComplete i;
            ClearTimeout timer; LPush (client (self σ)) (jobs_key (type (self σ)))]
        ++ closed
        ++ [Callback cb; EventsEmit i "complete" (PResult result)]
        ++ (if Job.removeOnComplete j then [JobCall i OpRemove] else []) /\
    pending σ' = filter (fun k => is_timer timer k = false) (ps ++ qs) /\
    running (self σ') = false /\
    job (self σ') = NoJob /\
    listeners (self σ') = [].
Proof.
  intros Hr Hj Hl Hp Hs Ht. apply Z.eqb_neq in Ht. open_world σ.
  cbn [run step mbind option_bind]. exec_m. rewrite Ht. exec_m.
  rewrite <- (app_assoc ps). cbn [app].
  fire_here.
  match goal with
  | |- context [exec (done_cb j fn s None result) ?σx] =>
      destruct (done_cb_sets σx j fn s result Hs) as (pre & -> & Hpre)
  end.
  exec_m.
  replace (S (length (ps ++ qs))) with (length (ps ++ qs ++ [K_timer ft cb]))
    by (rewrite !length_app; cbn; lia).
  erewrite fire_last; [| reflexivity | reflexivity]. cbn [mbind option_bind]. exec_m.
  erewrite fire_last; [| reflexivity | reflexivity]. cbn [mbind option_bind].
  unfold attempt_complete_cb. exec_m.
  rewrite (emit_to_shutdown_listener _ _ _ (Some ft, cb)) by reflexivity.
  exec_m.
  assert (Hf : filter (fun k => is_timer ft k = false) (ps ++ qs ++ [K_timer ft cb]) =
               filter (fun k => is_timer ft k = false) (ps ++ qs)).
  { rewrite app_assoc, filter_app.
    rewrite filter_cons_False by (cbn; rewrite Nat.eqb_refl; discriminate).
    rewrite filter_nil, app_nil_r. reflexivity. }
  rewrite Hf.
  destruct (cs !! ty) as [c|]; destruct (Job.removeOnComplete j); exec_m;
    eexists _, pre; (split; [reflexivity |]); (split; [exact Hpre |]); exec_m;
    (split; [rewrite <- ?app_assoc; reflexivity |]); auto.
Qed.

Lemma shutdown_waits_for_job_witness :
  exists σ' pre,
    run [CallShutdown 9%nat (Some 5000); Fire 0 (R_done None sent);
         Fire 3 R_unit; Fire 3 R_unit] email_busy = Some σ' /\
    forallb is_set pre = true /\
    trace σ' =
      trace email_busy ++ [SetTimeout 0 5000] ++ pre
        ++ [JobCall 42 OpComplete; JobCall 42 OpAttempt; Emit JobComplete 42;
            ClearTimeout 0; LPush 0%nat (jobs_key "email")]
        ++ [Quit 1%nat]
        ++ [Callback 9%nat; EventsEmit 42 "complete" (PResult sent)]
        ++ [] /\
    pending σ' =
      filter (fun k => is_timer 0 k = false) [K_pause; K_resume (Processor 0)] /\
    running (self σ') = false /\
    job (self σ') = NoJob /\
    listeners (self σ') = [].
Proof.
  assert (Hs : storable sent) by (intros _ H; discriminate H).
  assert (Ht : 5000 <> 0) by discriminate.
  exact (shutdown_waits_for_job email_busy [] [K_pause; K_resume (Processor 0)] job42
           (Processor 0) 0 sent 9%nat 5000 eq_refl eq_refl eq_refl eq_refl Hs Ht).
Defined.

Lemma filter_sets (f : Action -> bool) (l : list Action) :
  (forall id field v, f (JobCall id (OpSet field v)) = false) ->
  forallb is_set l = true -> List.filter f l = [].
Proof.
  intros Hf. induction l as [| a l IH]; [reflexivity |]. cbn [forallb List.filter].
  intros H. apply andb_prop in H as [Ha Hl].
  destruct a as [| | | | | | id op | | | | | | | | | | ]; try discriminate Ha.
  destruct op; try discriminate Ha. rewrite Hf. auto.
Qed.

(** X15: a second [shutdown] called while a first one is still waiting for
    the job ends at once: it detaches the listeners of the first call,
    clears [job] although the job is still being processed, pushes the
    token, closes the connection and invokes its own callback.  When the
    job then completes nothing listens any more: the callback of the first
    call, which had no timer, is never invoked. *)
Theorem second_shutdown_detaches_first (σ : World) (ps qs : list Kont) (j : Job.t)
    (fn : Fn) (s : Z) (result : Result) (cb1 cb2 : CbId) (t2 : option Z) :
  running (self σ) = true ->
  job (self σ) = Holding j ->
  listeners (self σ) = [] ->
  pending σ = ps ++ K_done j fn s :: qs ->
  storable result ->
  let n := length (ps ++ qs) in
  let i := Job.id j in
  let closed :=
    match clients σ !! type (self σ) with Some c => [Quit c] | None => [] end in
  exists σ1,
    (run [CallShutdown cb1 None; CallShutdown cb2 t2] σ = Some σ1 /\
     trace σ1 =
       trace σ ++ [LPush (client (self σ)) (jobs_key (type (self σ)))] ++ closed
         ++ [Callback cb2] /\
     listeners (self σ1) = [] /\
     job (self σ1) = NoJob /\
     pending σ1 = pending σ) /\
    exists σ' pre,
      run [Fire (length ps) (R_done None result); Fire n R_unit; Fire n R_unit] σ1
        = Some σ' /\
      forallb is_set pre = true /\
      trace σ' =
        trace σ1 ++ pre
          ++ [JobCall i OpComplete; JobCall i OpAttempt; Emit JobComplete i;
              EventsEmit i "complete" (PResult result)]
          ++ (if Job.removeOnComplete j then [JobCall i OpRemove] else []) /\
      List.filter is_callback (added σ σ') = [Callback cb2] /\
      pending σ' = ps ++ qs.
Proof.
  intros Hr Hj Hl Hp Hs. open_world σ.
  cbn [run step mbind option_bind]. exec_m.
  destruct (cs !! ty) as [c|]; exec_m.
  - eexists; split;
      [split; [reflexivity |]; exec_m; split; [flatten; reflexivity |]; auto |].
    cbn [run step mbind option_bind]. fire_here.
    match goal with
    | |- context [exec (done_cb j fn s None result) ?σx] =>
        destruct (done_cb_sets σx j fn s result Hs) as (pre & -> & Hpre)
    end.
    exec_m.
    erewrite fire_last; [| reflexivity | reflexivity]. cbn [mbind option_bind]. exec_m.
    erewrite fire_last; [| reflexivity | reflexivity]. cbn [mbind option_bind].
    unfold attempt_complete_cb, emit. exec_m.
    pose proof (filter_sets is_callback pre (fun _ _ _ => eq_refl) Hpre) as Hc.
    destruct (Job.removeOnComplete j); exec_m;
      eexists _, pre; (split; [reflexivity |]); (split; [exact Hpre |]); exec_m;
      (split; [rewrite <- ?app_assoc; reflexivity |]);
      (split; [| reflexivity]);
      unfold added; cbn [trace]; rewrite <- ?app_assoc; rewrite drop_app_length;
      cbn [app List.filter is_callback]; rewrite ?List.filter_app, Hc; reflexivity.
  - eexists; split;
      [split; [reflexivity |]; exec_m; split; [flatten; reflexivity |]; auto |].
    cbn [run step mbind option_bind]. fire_here.
    match goal with
    | |- context [exec (done_cb j fn s None result) ?σx] =>
        destruct (done_cb_sets σx j fn s result Hs) as (pre & -> & Hpre)
    end.
    exec_m.
    erewrite fire_last; [| reflexivity | reflexivity]. cbn [mbind option_bind]. exec_m.
    erewrite fire_last; [| reflexivity | reflexivity]. cbn [mbind option_bind].
    unfold attempt_complete_cb, emit. exec_m.
    pose proof (filter_sets is_callback pre (fun _ _ _ => eq_refl) Hpre) as Hc.
    destruct (Job.removeOnComplete j); exec_m;
      eexists _, pre; (split; [reflexivity |]); (split; [exact Hpre |]); exec_m;
      (split; [rewrite <- ?app_assoc; reflexivity |]);
      (split; [| reflexivity]);
      unfold added; cbn [trace]; rewrite <- ?app_assoc; rewrite drop_app_length;
      cbn [app List.filter is_callback]; rewrite ?List.filter_app, Hc; reflexivity.
Qed.

Lemma second_shutdown_detaches_first_witness :
  exists σ1,
    (run [CallShutdown 1%nat None; CallShutdown 2%nat None] email_busy = Some σ1 /\
     trace σ1 =
       trace email_busy ++ [LPush 0%nat (jobs_key "email")] ++ [Quit 1%nat]
         ++ [Callback 2%nat] /\
     listeners (self σ1) = [] /\
     job (self σ1) = NoJob /\
     pending σ1 = pending email_busy) /\
    exists σ' pre,
      run [Fire 0 (R_done None sent); Fire 2 R_unit; Fire 2 R_unit] σ1 = Some σ' /\
      forallb is_set pre = true /\
      trace σ' =
        trace σ1 ++ pre
          ++ [JobCall 42 OpComplete; JobCall 42 OpAttempt; Emit JobComplete 42;
              EventsEmit 42 "complete" (PResult sent)]
          ++ [] /\
      List.filter is_callback (added email_busy σ') = [Callback 2%nat] /\
      pending σ' = [K_pause; K_resume (Processor 0)].
Proof.
  assert (Hs : storable sent) by (intros _ H; discriminate H).
  exact (second_shutdown_detaches_first email_busy [] [K_pause; K_resume (Processor 0)]
           job42 (Processor 0) 0 sent 1%nat 2%nat None
           eq_refl eq_refl eq_refl eq_refl Hs).
Defined.

(** X16: [resume] called from the processor after a [shutdown] that is
    still waiting for the job, and before [done]: the worker parks at once
    although the job is still being processed, and parks a second time when
    [done] is called; two blocking waits are then outstanding on the same
    connection.  The listeners of the shutdown stay registered and its
    callback has not been invoked. *)
Theorem resume_before_done_parks_twice (σ : World) (ps qs : list Kont) (j : Job.t)
    (fn : Fn) (s : Z) (result : Result) (cb : CbId) :
  running (self σ) = true ->
  job (self σ) = Holding j ->
  listeners (self σ) = [] ->
  pending σ = ps ++ K_done j fn s :: K_pause :: K_resume fn :: qs ->
  storable result ->
  exists σ' c,
    run [CallShutdown cb None; Fire (length ps + 2) R_unit;
         Fire (length ps) (R_done None result)] σ = Some σ' /\
    List.filter is_blpop (added σ σ') =
      [BLPop c (jobs_key (type (self σ))); BLPop c (jobs_key (type (self σ)))] /\
    List.filter is_callback (added σ σ') = [] /\
    pending σ' =
      ps ++ K_pause :: qs
        ++ [K_blpop c (StartCb fn); K_complete j result; K_blpop c (StartCb fn)] /\
    running (self σ') = true /\
    listeners (self σ') =
      [(JobComplete, (None, cb)); (JobFailed, (None, cb)); (JobFailedAttempt, (None, cb))].
Proof.
  intros Hr Hj Hl Hp Hs. open_world σ.
  cbn [run step mbind option_bind]. exec_m.
  replace (length ps + 2)%nat with (length (ps ++ [K_done j fn s; K_pause]))
    by (rewrite length_app; cbn; lia).
  erewrite (fire_at _ (ps ++ [K_done j fn s; K_pause]) qs);
    [| cbn [pending]; rewrite <- app_assoc; reflexivity | reflexivity].
  cbn [mbind option_bind]. exec_m.
  destruct (cs !! ty) as [c|] eqn:Hc; exec_m.
  - rewrite <- !(app_assoc ps). cbn [app].
    fire_here.
    match goal with
    | |- context [exec (done_cb j fn s None result) ?σx] =>
        destruct (done_cb_sets σx j fn s result Hs) as (pre & -> & Hpre)
    end.
    exec_m. rewrite ?Hc, ?lookup_insert_eq. exec_m.
    pose proof (filter_sets is_callback pre (fun _ _ _ => eq_refl) Hpre) as Hcb.
    pose proof (filter_sets is_blpop pre (fun _ _ _ => eq_refl) Hpre) as Hbl.
    eexists _, _. split; [reflexivity |]. exec_m.
    unfold added. cbn [trace]. rewrite <- ?app_assoc. rewrite drop_app_length.
    cbn [app List.filter is_blpop is_callback].
    rewrite ?List.filter_app, Hcb, Hbl. cbn [app List.filter is_blpop is_callback].
    repeat split. rewrite <- ?app_assoc. reflexivity.
  - rewrite <- !(app_assoc ps). cbn [app].
    fire_here.
    match goal with
    | |- context [exec (done_cb j fn s None result) ?σx] =>
        destruct (done_cb_sets σx j fn s result Hs) as (pre & -> & Hpre)
    end.
    exec_m. rewrite ?Hc, ?lookup_insert_eq. exec_m.
    pose proof (filter_sets is_callback pre (fun _ _ _ => eq_refl) Hpre) as Hcb.
    pose proof (filter_sets is_blpop pre (fun _ _ _ => eq_refl) Hpre) as Hbl.
    eexists _, _. split; [reflexivity |]. exec_m.
    unfold added. cbn [trace]. rewrite <- ?app_assoc. rewrite drop_app_length.
    cbn [app List.filter is_blpop is_callback].
    rewrite ?List.filter_app, Hcb, Hbl. cbn [app List.filter is_blpop is_callback].
    repeat split. rewrite <- ?app_assoc. reflexivity.
Qed.

Lemma resume_before_done_parks_twice_witness :
  exists σ' c,
    run [CallShutdown 9%nat None; Fire 2 R_unit; Fire 0 (R_done None sent)] email_busy
      = Some σ' /\
    List.filter is_blpop (added email_busy σ') =
      [BLPop c (jobs_key "email"); BLPop c (jobs_key "email")] /\
    List.filter is_callback (added email_busy σ') = [] /\
    pending σ' =
      [K_pause; K_blpop c (StartCb (Processor 0)); K_complete job42 sent;
       K_blpop c (StartCb (Processor 0))] /\
    running (self σ') = true /\
    listeners (self σ') =
      [(JobComplete, (None, 9%nat)); (JobFailed, (None, 9%nat));
       (JobFailedAttempt, (None, 9%nat))].
Proof.
  assert (Hs : storable sent) by (intros _ H; discriminate H).
  exact (resume_before_done_parks_twice email_busy [] [] job42 (Processor 0) 0 sent 9%nat
           eq_refl eq_refl eq_refl eq_refl Hs).
Defined.

(** ** Shutdown during a claim *)

(** X17: [shutdown] called between the wake-up and the reply of the pop
    registers its listener and waits for a job event.  When the pop then
    gives no id there is no job and no event: [start] finds the worker
    stopped, nothing is outstanding, and the callback has not been invoked.
    A timer does not help when it fires while [job] is still the temporary
    value: it does nothing and is gone. *)
Theorem shutdown_while_reserving_stalls (σ : World) (ps qs : list Kont) (fn : Fn)
    (cb : CbId) (t : Z) :
  running (self σ) = true ->
  job (self σ) = Reserving ->
  listeners (self σ) = [] ->
  pending σ = ps ++ K_exec (StartCb fn) :: qs ->
  t <> 0 ->
  let n := length (ps ++ qs) in
  let waiting timer :=
    [(JobComplete, (timer, cb)); (JobFailed, (timer, cb)); (JobFailedAttempt, (timer, cb))] in
  (exists σ',
     run [CallShutdown cb None; Fire (length ps) (R_exec None []); Fire n R_unit] σ
       = Some σ' /\
     trace σ' = trace σ ++ [NextTick] /\
     pending σ' = ps ++ qs /\
     running (self σ') = false /\
     job (self σ') = NoJob /\
     listeners (self σ') = waiting None) /\
  (exists σ',
     run [CallShutdown cb (Some t); Fire (S n) R_unit;
          Fire (length ps) (R_exec None []); Fire n R_unit] σ = Some σ' /\
     trace σ' = trace σ ++ [SetTimeout (fresh_timer σ) t; NextTick] /\
     pending σ' = ps ++ qs /\
     running (self σ') = false /\
     job (self σ') = NoJob /\
     listeners (self σ') = waiting (Some (fresh_timer σ))).
Proof.
  intros Hr Hj Hl Hp Ht. apply Z.eqb_neq in Ht. open_world σ. split.
  - cbn [run step mbind option_bind]. exec_m. fire_here. exec_m.
    erewrite fire_last; [| reflexivity | reflexivity]. cbn [mbind option_bind]. exec_m.
    eexists. split; [reflexivity |]. exec_m. repeat split; flatten; reflexivity.
  - cbn [run step mbind option_bind]. exec_m. rewrite Ht. exec_m.
    replace (S (length (ps ++ qs))) with (length (ps ++ K_exec (StartCb fn) :: qs))
      by (rewrite !length_app; cbn; lia).
    erewrite fire_last; [| reflexivity | reflexivity]. cbn [mbind option_bind]. exec_m.
    fire_here. exec_m.
    erewrite fire_last; [| reflexivity | reflexivity]. cbn [mbind option_bind]. exec_m.
    eexists. split; [reflexivity |]. exec_m. repeat split; flatten; reflexivity.
Qed.

Lemma shutdown_while_reserving_stalls_witness :
  let σ := default email_parked (run [Fire 0 (R_err None)] email_parked) in
  exists σ',
    run [CallShutdown 9%nat None; Fire 0 (R_exec None []); Fire 0 R_unit] σ = Some σ' /\
    trace σ' = trace σ ++ [NextTick] /\
    pending σ' = [] /\
    running (self σ') = false /\
    job (self σ') = NoJob /\
    listeners (self σ') =
      [(JobComplete, (None, 9%nat)); (JobFailed, (None, 9%nat));
       (JobFailedAttempt, (None, 9%nat))].
Proof.
  assert (Ht : 1 <> 0) by discriminate.
  exact (proj1 (shutdown_while_reserving_stalls
                  (default email_parked (run [Fire 0 (R_err None)] email_parked))
                  [] [] (Processor 0) 9%nat 1 eq_refl eq_refl eq_refl eq_refl Ht)).
Defined.

(** X18: the same shutdown is completed by its timer when the timer fires
    after the empty pop: [job] is [null] by then, and the timer runs the
    listener, which pushes the token, closes the connection and invokes the
    callback. *)
Theorem timer_completes_idle_shutdown (σ : World) (ps qs : list Kont) (fn : Fn)
    (cb : CbId) (t : Z) :
  running (self σ) = true ->
  job (self σ) = Reserving ->
  listeners (self σ) = [] ->
  pending σ = ps ++ K_exec (StartCb fn) :: qs ->
  t <> 0 ->
  let n := length (ps ++ qs) in
  let timer := fresh_timer σ in
  let closed :=
    match clients σ !! type (self σ) with Some c => [Quit c] | None => [] end in
  exists σ',
    run [CallShutdown cb (Some t); Fire (length ps) (R_exec None []);
         Fire (S n) R_unit; Fire n R_unit] σ = Some σ' /\
    trace σ' =
      trace σ ++ [SetTimeout timer t; NextTick; ClearTimeout timer;
                  LPush (client (self σ)) (jobs_key (type (self σ)))]
        ++ closed ++ [Callback cb] /\
    pending σ' = filter (fun k => is_timer timer k = false) (ps ++ qs) /\
    listeners (self σ') = [] /\
    clients σ' !! type (self σ) = None.
Proof.
  intros Hr Hj Hl Hp Ht. apply Z.eqb_neq in Ht. open_world σ.
  cbn [run step mbind option_bind]. exec_m. rewrite Ht. exec_m.
  rewrite <- (app_assoc ps). cbn [app]. fire_here. exec_m.
  replace (S (length (ps ++ qs))) with (length (ps ++ qs ++ [K_timer ft cb]))
    by (rewrite !length_app; cbn; lia).
  erewrite fire_last; [| reflexivity | reflexivity]. cbn [mbind option_bind]. exec_m.
  rewrite (app_assoc ps qs).
  erewrite fire_last; [| reflexivity | reflexivity]. cbn [mbind option_bind]. exec_m.
  destruct (cs !! ty) as [c|] eqn:Hc; exec_m;
    (eexists; split; [reflexivity |]); exec_m; rewrite lookup_delete_eq;
    repeat split; flatten; reflexivity.
Qed.

Lemma timer_completes_idle_shutdown_witness :
  let σ := default email_parked (run [Fire 0 (R_err None)] email_parked) in
  exists σ',
    run [CallShutdown 9%nat (Some 500); Fire 0 (R_exec None []); Fire 1 R_unit;
         Fire 0 R_unit] σ = Some σ' /\
    trace σ' =
      trace σ ++ [SetTimeout 0 500; NextTick; ClearTimeout 0;
                  LPush 0%nat (jobs_key "email")]
        ++ [Quit 1%nat] ++ [Callback 9%nat] /\
    pending σ' = filter (fun k => is_timer 0 k = false) [] /\
    listeners (self σ') = [] /\
    clients σ' !! "email" = None.
Proof.
  assert (Ht : 500 <> 0) by discriminate.
  exact (timer_completes_idle_shutdown
           (default email_parked (run [Fire 0 (R_err None)] email_parked))
           [] [] (Processor 0) 9%nat 500 eq_refl eq_refl eq_refl eq_refl Ht).
Defined.

(** X19: the listener of a waiting shutdown tells jobs apart by their id.
    While the worker holds a job, the lifecycle event of a job with another
    id is emitted and otherwise ignored; while [job] is the temporary value
    every job event is ignored.  The event of the job that is held runs the
    listener. *)
Theorem other_job_events_ignored (σ : World) (ev : JobEvent) (a b : Job.t)
    (l : option nat * CbId) :
  listeners (self σ) = [(JobComplete, l); (JobFailed, l); (JobFailedAttempt, l)] ->
  let emitted := with_trace (trace σ ++ [Emit ev (Job.id a)]) σ in
  (job (self σ) = Holding b -> Job.id a <> Job.id b -> exec (emit ev a) σ = emitted) /\
  (job (self σ) = Reserving -> exec (emit ev a) σ = emitted) /\
  (job (self σ) = Holding b -> Job.id a = Job.id b ->
     exists post,
       trace (exec (emit ev a) σ) = trace emitted ++ post ++ [Callback l.2] /\
       listeners (self (exec (emit ev a) σ)) = [] /\
       job (self (exec (emit ev a) σ)) = NoJob).
Proof.
  intros Hl. cbv zeta. unfold exec.
  rewrite (emit_to_shutdown_listener σ ev a l Hl).
  destruct l as [t cb]. split; [| split].
  - intros Hj Hne. apply Z.eqb_neq in Hne. open_world σ. exec_m. rewrite Hne.
    reflexivity.
  - intros Hj. open_world σ. exec_m. reflexivity.
  - intros Hj Heq. apply Z.eqb_eq in Heq. open_world σ. exec_m. rewrite Heq.
    destruct t as [t|]; destruct (cs !! ty) as [c|]; exec_m.
    + exists [ClearTimeout t; LPush cl (jobs_key ty); Quit c].
      split; [flatten; reflexivity | auto].
    + exists [ClearTimeout t; LPush cl (jobs_key ty)].
      split; [flatten; reflexivity | auto].
    + exists [LPush cl (jobs_key ty); Quit c].
      split; [flatten; reflexivity | auto].
    + exists [LPush cl (jobs_key ty)].
      split; [flatten; reflexivity | auto].
Qed.

Lemma other_job_events_ignored_witness :
  let σ := exec (shutdown 9%nat None) email_busy in
  let other :=
    {| Job.id := 41; Job.delay := 0; Job.backoff := false;
       Job._getBackoffImpl := None; Job.removeOnComplete := false |} in
  exec (emit JobComplete other) σ =
  with_trace (trace σ ++ [Emit JobComplete 41]) σ.
Proof.
  assert (H : 41 <> 42) by discriminate.
  exact (proj1 (other_job_events_ignored (exec (shutdown 9%nat None) email_busy)
                  JobComplete
                  {| Job.id := 41; Job.delay := 0; Job.backoff := false;
                     Job._getBackoffImpl := None; Job.removeOnComplete := false |}
                  job42 (None, 9%nat) eq_refl)
           eq_refl H).
Defined.

(** X20: [shutdown] of a worker that is parked ends at once: one token is
    pushed through the worker's own connection, the blocking connection is
    closed, the callback is invoked.  When the wait then returns without
    error, the worker is no longer running: it pushes a second token,
    through the blocking connection it has just closed, and the [start]
    scheduled on the next tick does nothing. *)
Theorem parked_shutdown_pushes_two_tokens (σ : World) (ps qs : list Kont) (c : Conn)
    (fn : Fn) (cb : CbId) (timeout : option Z) :
  running (self σ) = true ->
  job (self σ) = NoJob ->
  clients σ !! type (self σ) = Some c ->
  pending σ = ps ++ K_blpop c (StartCb fn) :: qs ->
  let n := length (ps ++ qs) in
  let key := jobs_key (type (self σ)) in
  exists σ',
    run [CallShutdown cb timeout; Fire (length ps) (R_err None); Fire n R_unit] σ
      = Some σ' /\
    trace σ' =
      trace σ ++ [LPush (client (self σ)) key; Quit c; Callback cb; LPush c key;
                  NextTick] /\
    pending σ' = ps ++ qs /\
    running (self σ') = false /\
    clients σ' !! type (self σ) = None.
Proof.
  intros Hr Hj Hc Hp. open_world σ.
  cbn [run step mbind option_bind]. exec_m. rewrite Hc. exec_m.
  fire_here. exec_m.
  rewrite bool_decide_eq_false_2 by (intros [? ?]; discriminate).
  exec_m.
  erewrite fire_last; [| reflexivity | reflexivity]. cbn [mbind option_bind]. exec_m.
  eexists. split; [reflexivity |]. exec_m. rewrite lookup_delete_eq.
  repeat split; flatten; reflexivity.
Qed.

Lemma parked_shutdown_pushes_two_tokens_witness :
  exists σ',
    run [CallShutdown 9%nat (Some 1000); Fire 0 (R_err None); Fire 0 R_unit] email_parked
      = Some σ' /\
    trace σ' =
      trace email_parked
        ++ [LPush 0%nat (jobs_key "email"); Quit 1%nat; Callback 9%nat;
            LPush 1%nat (jobs_key "email"); NextTick] /\
    pending σ' = [] /\
    running (self σ') = false /\
    clients σ' !! "email" = None.
Proof.
  exact (parked_shutdown_pushes_two_tokens email_parked [] [] 1%nat (Processor 0) 9%nat
           (Some 1000) eq_refl eq_refl eq_refl eq_refl).
Defined.
